(** * Expense ledger ([expense-tracker/main.py]) over a model of its SQLite table

    The program keeps one table, [expenses], in a SQLite file and exposes
    five tools ([add_expense], [list_expenses], [summarize], [edit_expense],
    [delete_expense]), an initializer [init_db] and a resource [categories].
    Every tool is one SQL statement wrapped in [try]/[except Exception].

    The embedding follows that shape:
    - Python arguments are dynamically typed values ([pyval]);
    - the driver binds them to SQLite storage classes ([sqlval]);
    - the table is a list of rows in rowid order together with the
      AUTOINCREMENT counter kept in [sqlite_sequence];
    - a statement either yields a result and a new table or raises, and the
      [with sqlite3.connect(...)] block commits or rolls back accordingly.

    IEEE doubles are kept abstract behind the class [Float64]. *)

From Stdlib Require Import ZArith List String Ascii Bool Lia.
From Stdlib Require Import Sorting.Sorted Sorting.Permutation.
From Stdlib Require Import QArith DecimalString.
Import ListNotations.

Local Open Scope string_scope.
Local Open Scope Z_scope.

(** ** Binary64 numbers

    [real] stands for the binary64 values other than NaN (SQLite never stores
    a NaN: it binds and returns it as NULL).  The operations are the ones the
    SQL of the program needs; their laws say that [<=] is a total preorder. *)

Class Float64 := {
  real : Type;
  (** the integer as a double, as REAL affinity does with INTEGER values *)
  real_of_int : Z -> real;
  (** a text that is a well-formed numeric literal, as REAL affinity reads it *)
  real_of_text : string -> option real;
  (** the longest numeric prefix of a text or blob, 0.0 when there is none *)
  real_of_prefix : string -> real;
  (** the rendering of a double when it is stored in a TEXT column *)
  text_of_real : real -> string;
  (** addition; [None] when the sum is NaN (infinities of opposite sign) *)
  real_add : real -> real -> option real;
  real_leb : real -> real -> bool;
  real_is_zero : real -> bool;
  real_leb_total : forall a b, real_leb a b = true \/ real_leb b a = true;
  real_leb_trans : forall a b c,
      real_leb a b = true -> real_leb b c = true -> real_leb a c = true
}.

(** ** Exceptions and results *)

Inductive exn_kind :=
| OverflowError
| ProgrammingError
| OperationalError
| IntegrityError
| FileNotFoundError
| OSError.

Record exn := Exn { kind : exn_kind; message : string }.

Inductive result (A : Type) :=
| Ok (a : A)
| Raise (e : exn).

Arguments Ok {A} a.
Arguments Raise {A} e.

Definition bind_result {A B} (m : result A) (k : A -> result B) : result B :=
  match m with
  | Ok a => k a
  | Raise e => Raise e
  end.

Notation "x <- m ;; k" := (bind_result m (fun x => k))
  (at level 61, m at next level, right associativity).
Notation "' pat <- m ;; k" := (bind_result m (fun x => match x with pat => k end))
  (at level 61, pat pattern, m at next level, right associativity).

(** [try: body / except Exception as e: handler e] *)
Definition try_except {A} (body : result A) (handler : exn -> result A) : result A :=
  match body with
  | Ok a => Ok a
  | Raise e => handler e
  end.

Definition kind_eqb (a b : exn_kind) : bool :=
  match a, b with
  | OverflowError, OverflowError
  | ProgrammingError, ProgrammingError
  | OperationalError, OperationalError
  | IntegrityError, IntegrityError
  | FileNotFoundError, FileNotFoundError
  | OSError, OSError => true
  | _, _ => false
  end.

(** [try: body / except K: handler]: other kinds keep propagating *)
Definition try_except_kind {A} (k : exn_kind) (body : result A)
    (handler : exn -> result A) : result A :=
  match body with
  | Ok a => Ok a
  | Raise e => if kind_eqb (kind e) k then handler e else Raise e
  end.

(** A small instance to run the model on sample ledgers: rationals with exact
    arithmetic.  The samples pass numbers as numbers and texts as texts, so
    the conversions between the two are given their trivial reading here
    (no text is numeric). *)
#[export] Instance exact_numbers : Float64.
Proof.
  refine {| real := Q;
            real_of_int := inject_Z;
            real_of_text := fun _ => None;
            real_of_prefix := fun _ => 0%Q;
            text_of_real := fun _ => EmptyString;
            real_add := fun a b => Some (Qred (a + b));
            real_leb := Qle_bool;
            real_is_zero := fun q => Qeq_bool q 0 |}.
  - intros a b. rewrite !Qle_bool_iff. destruct (Qlt_le_dec a b) as [H | H].
    + left. apply Qlt_le_weak, H.
    + right. exact H.
  - intros a b c. rewrite !Qle_bool_iff. apply Qle_trans.
Defined.

(** ** JSON documents, as [json.dumps] writes them *)

#[warnings="-register-all"]
Inductive json :=
| JString (s : string)
| JArray (items : list json)
| JObject (members : list (string * json)).

Definition quote_char : ascii := "034"%char.
Definition backslash : ascii := "092"%char.
Definition newline : string := String "010"%char EmptyString.

Definition hex_digit (n : N) : ascii :=
  match n with
  | 10%N => "a" | 11%N => "b" | 12%N => "c"
  | 13%N => "d" | 14%N => "e" | 15%N => "f"
  | _ => ascii_of_N (48 + n)
  end%char.

(** One character inside a JSON string.  Bytes above 127 are parts of
    multi-byte characters, which [json.dumps] writes as [\u] escapes of the
    code point; none occurs in the catalog, and they are left as they are. *)
Definition json_char (c : ascii) : string :=
  let n := N_of_ascii c in
  if (n =? 34)%N then String backslash (String quote_char EmptyString)
  else if (n =? 92)%N then String backslash (String backslash EmptyString)
  else if (n =? 10)%N then String backslash "n"
  else if (n =? 13)%N then String backslash "r"
  else if (n =? 9)%N then String backslash "t"
  else if (n =? 8)%N then String backslash "b"
  else if (n =? 12)%N then String backslash "f"
  else if (n <? 32)%N then
    String backslash ("u00" ++ String (hex_digit (n / 16)) (String (hex_digit (n mod 16)) EmptyString))
  else String c EmptyString.

Fixpoint json_escape (s : string) : string :=
  match s with
  | EmptyString => EmptyString
  | String c s' => json_char c ++ json_escape s'
  end.

Definition json_quote (s : string) : string :=
  String quote_char (json_escape s ++ String quote_char EmptyString).

Fixpoint spaces (n : nat) : string :=
  match n with
  | O => EmptyString
  | S n' => String " " (spaces n')
  end.

(** The line break in front of an item at nesting [level]; nothing without
    [indent=] *)
Definition break_line (indent : option nat) (level : nat) : string :=
  match indent with
  | Some k => newline ++ spaces (k * level)
  | None => EmptyString
  end.

Definition item_separator (indent : option nat) (level : nat) : string :=
  match indent with
  | Some _ => "," ++ break_line indent level
  | None => ", "
  end.

Fixpoint dumps_at (indent : option nat) (level : nat) (j : json) {struct j} : string :=
  match j with
  | JString s => json_quote s
  | JArray [] => "[]"
  | JArray (x :: xs) =>
      "[" ++ break_line indent (S level) ++ dumps_at indent (S level) x
      ++ (fix rest (l : list json) : string :=
            match l with
            | [] => EmptyString
            | y :: l' =>
                item_separator indent (S level) ++ dumps_at indent (S level) y ++ rest l'
            end) xs
      ++ break_line indent level ++ "]"
  | JObject [] => "{}"
  | JObject ((k, v) :: ms) =>
      "{" ++ break_line indent (S level) ++ json_quote k ++ ": "
      ++ dumps_at indent (S level) v
      ++ (fix rest (l : list (string * json)) : string :=
            match l with
            | [] => EmptyString
            | (k', v') :: l' =>
                item_separator indent (S level) ++ json_quote k' ++ ": "
                ++ dumps_at indent (S level) v' ++ rest l'
            end) ms
      ++ break_line indent level ++ "}"
  end.

(** [json.dumps(j)] and [json.dumps(j, indent=k)] *)
Definition dumps (indent : option nat) (j : json) : string := dumps_at indent 0 j.

(** ** The category catalog *)

(** The file at [CATEGORIES_PATH] as [open] and [read] find it *)
Inductive catalog_file :=
| Missing
| Unreadable (reason : string)
| Content (text : string).

(** [with open(CATEGORIES_PATH, "r", encoding="utf-8") as f: return f.read()] *)
Definition read_catalog (f : catalog_file) : result string :=
  match f with
  | Missing => Raise (Exn FileNotFoundError "No such file or directory")
  | Unreadable m => Raise (Exn OSError m)
  | Content s => Ok s
  end.

Definition default_categories : json :=
  JObject
    [ ("categories",
       JArray
         [ JString "Food & Dining";
           JString "Transportation";
           JString "Shopping";
           JString "Entertainment";
           JString "Bills & Utilities";
           JString "Healthcare";
           JString "Travel";
           JString "Education";
           JString "Business";
           JString "Other" ]) ].

Definition categories (f : catalog_file) : result string :=
  try_except
    (try_except_kind FileNotFoundError
       (read_catalog f)
       (fun _ => Ok (dumps (Some 2%nat) default_categories)))
    (fun e =>
       Ok (dumps None (JObject [ ("error", JString ("Could not load categories: " ++ message e)) ]))).

(** A name between double quotes, as it stands in the default document *)
Definition quoted (s : string) : string :=
  String quote_char (s ++ String quote_char EmptyString).

(** ** Generic stable insertion sort, used for ORDER BY and GROUP BY *)

Section Sort.
Context {A : Type}.
Variable before : A -> A -> bool.

(** [before x y]: [x] may stand in front of [y] *)
Fixpoint insert_by (x : A) (l : list A) : list A :=
  match l with
  | [] => [x]
  | y :: l' => if before x y then x :: l else y :: insert_by x l'
  end.

Definition sort_by (l : list A) : list A := fold_right insert_by [] l.

End Sort.

Section Ledger.
Context {F : Float64}.

(** ** Values *)

(** What a caller can pass: the tools have no annotations.  [PyFloat None] is
    NaN; [PyOther] is any object the driver cannot bind (a list, a dict), of
    which only the truth value matters. *)
Inductive pyval :=
| PyNone
| PyInt (z : Z)
| PyFloat (f : option real)
| PyStr (s : string)
| PyBytes (b : string)
| PyOther (truth : bool).

(** Python truth value, as tested by [if category:] *)
Definition truthy (v : pyval) : bool :=
  match v with
  | PyNone => false
  | PyInt z => negb (z =? 0)
  | PyFloat None => true
  | PyFloat (Some r) => negb (real_is_zero r)
  | PyStr s => negb (s =? "")%string
  | PyBytes b => negb (b =? "")%string
  | PyOther t => t
  end.

(** SQLite storage classes *)
Inductive sqlval :=
| Null
| Integer (z : Z)
| Real (r : real)
| Text (s : string)
| Blob (b : string).

Definition max_rowid : Z := 9223372036854775807.
Definition min_int64 : Z := -9223372036854775808.

(** Binding of one [?] parameter by the [sqlite3] driver *)
Definition bind_param (v : pyval) : result sqlval :=
  match v with
  | PyNone => Ok Null
  | PyInt z =>
      if (min_int64 <=? z) && (z <=? max_rowid) then Ok (Integer z)
      else Raise (Exn OverflowError "Python int too large to convert to SQLite INTEGER")
  | PyFloat None => Ok Null
  | PyFloat (Some r) => Ok (Real r)
  | PyStr s => Ok (Text s)
  | PyBytes b => Ok (Blob b)
  | PyOther _ => Raise (Exn ProgrammingError "Error binding parameter: type is not supported")
  end.

(** A value held by a TEXT column: after TEXT affinity, a non-NULL value is a
    text or a blob. *)
Inductive textual :=
| Txt (s : string)
| Bin (b : string).

(** A non-NULL value held by the REAL column [amount]: numbers are doubles,
    a text that is not numeric and a blob are kept as they are. *)
Inductive stored_amount :=
| AReal (r : real)
| AText (s : string)
| ABlob (b : string).

Definition decimal (z : Z) : string := NilZero.string_of_int (Z.to_int z).

(** Column affinity TEXT; [None] is NULL *)
Definition text_affinity (v : sqlval) : option textual :=
  match v with
  | Null => None
  | Integer z => Some (Txt (decimal z))
  | Real r => Some (Txt (text_of_real r))
  | Text s => Some (Txt s)
  | Blob b => Some (Bin b)
  end.

(** Column affinity REAL; [None] is NULL *)
Definition real_affinity (v : sqlval) : option stored_amount :=
  match v with
  | Null => None
  | Integer z => Some (AReal (real_of_int z))
  | Real r => Some (AReal r)
  | Text s =>
      match real_of_text s with
      | Some r => Some (AReal r)
      | None => Some (AText s)
      end
  | Blob b => Some (ABlob b)
  end.

Definition val_of_textual (t : textual) : sqlval :=
  match t with
  | Txt s => Text s
  | Bin b => Blob b
  end.

Definition val_of_nullable (t : option textual) : sqlval :=
  match t with
  | Some x => val_of_textual x
  | None => Null
  end.

(** ** Comparison of TEXT-column values (collation BINARY): every text sorts
    before every blob, texts and blobs compare bytewise, and a comparison with
    NULL is NULL. *)

Definition textual_compare (a b : textual) : comparison :=
  match a, b with
  | Txt x, Txt y => String.compare x y
  | Txt _, Bin _ => Lt
  | Bin _, Txt _ => Gt
  | Bin x, Bin y => String.compare x y
  end.

Definition is_eq (c : comparison) : bool :=
  match c with Eq => true | _ => false end.
Definition is_le (c : comparison) : bool :=
  match c with Gt => false | _ => true end.
Definition is_ge (c : comparison) : bool :=
  match c with Lt => false | _ => true end.

Definition sql_compare (test : comparison -> bool) (a b : option textual) : option bool :=
  match a, b with
  | Some x, Some y => Some (test (textual_compare x y))
  | _, _ => None
  end.

Definition sql_eq := sql_compare is_eq.
Definition sql_le := sql_compare is_le.
Definition sql_ge := sql_compare is_ge.

(** Three-valued AND *)
Definition sql_and (a b : option bool) : option bool :=
  match a, b with
  | Some false, _ | _, Some false => Some false
  | Some true, Some true => Some true
  | _, _ => None
  end.

(** [x BETWEEN lo AND hi] is [x >= lo AND x <= hi] *)
Definition sql_between (x lo hi : option textual) : option bool :=
  sql_and (sql_ge x lo) (sql_le x hi).

(** A WHERE clause keeps the rows on which it is true (not false, not NULL) *)
Definition holds (c : option bool) : bool :=
  match c with
  | Some true => true
  | _ => false
  end.

(** COALESCE(a, b) *)
Definition sql_coalesce (a b : sqlval) : sqlval :=
  match a with
  | Null => b
  | _ => a
  end.

(** ** The table

    [CREATE TABLE expenses(id INTEGER PRIMARY KEY AUTOINCREMENT,
    date TEXT NOT NULL, amount REAL NOT NULL, category TEXT NOT NULL,
    subcategory TEXT DEFAULT '', note TEXT DEFAULT '')] *)

Record expense := {
  id : Z;
  date : textual;
  amount : stored_amount;
  category : textual;
  subcategory : option textual;
  note : option textual
}.

(** The rows in rowid order and the largest rowid ever handed out, which
    AUTOINCREMENT keeps in [sqlite_sequence]. *)
Record table := {
  rows : list expense;
  seq : Z
}.

(** The database file: [None] while it holds no [expenses] table. *)
Definition database := option table.

(** A row of the summary: [{"category": c, "total_amount": s, "count": n}];
    the total is NULL when the sum is NaN. *)
Record category_total := {
  sum_category : textual;
  total_amount : option real;
  count : nat
}.

(** What a tool returns: the dict or list of dicts on the success paths, the
    dict [{"status": "error", "message": m}] on the failure path. *)
Inductive response :=
| Added (rowid : Z) (msg : string)
| Listing (found : list expense)
| Summary (groups : list category_total)
| Updated (updated_rows : nat)
| Deleted (deleted_rows : nat)
| Failure (msg : string).

(** ** Statements *)

(** [sqlite3.connect]: [io] is the fault, if any, that the storage engine
    reports when the file is opened (unable to open, locked, I/O error). *)
Definition connect (io : option string) : result unit :=
  match io with
  | Some m => Raise (Exn OperationalError m)
  | None => Ok tt
  end.

(** Preparing a statement on [expenses] fails when the table is missing. *)
Definition the_table (db : database) : result table :=
  match db with
  | Some t => Ok t
  | None => Raise (Exn OperationalError "no such table: expenses")
  end.

Definition not_null {A} (column : string) (v : option A) : result A :=
  match v with
  | Some a => Ok a
  | None => Raise (Exn IntegrityError ("NOT NULL constraint failed: expenses." ++ column))
  end.

Definition largest_rowid (t : table) : Z :=
  Z.max (seq t) (fold_right Z.max 0 (map id (rows t))).

(** AUTOINCREMENT: one more than the largest rowid ever used, and no wrap
    around once the largest 64-bit rowid has been used. *)
Definition next_rowid (t : table) : result Z :=
  if largest_rowid t <? max_rowid then Ok (largest_rowid t + 1)
  else Raise (Exn OperationalError "database or disk is full").

(** [INSERT INTO expenses(date, amount, category, subcategory, note)
    VALUES (d, a, c, s, n)]; the result carries [lastrowid]. *)
Definition sql_insert (t : table) (d a c s n : sqlval) : result (Z * table) :=
  rowid <- next_rowid t ;;
  d' <- not_null "date" (text_affinity d) ;;
  a' <- not_null "amount" (real_affinity a) ;;
  c' <- not_null "category" (text_affinity c) ;;
  Ok (rowid,
      {| rows := rows t ++ [ {| id := rowid; date := d'; amount := a'; category := c';
                                subcategory := text_affinity s; note := text_affinity n |} ];
         seq := rowid |}).

(** [DELETE FROM expenses WHERE w]; the result carries [rowcount]. *)
Definition sql_delete (t : table) (w : expense -> option bool) : nat * table :=
  (List.length (filter (fun r => holds (w r)) (rows t)),
   {| rows := filter (fun r => negb (holds (w r))) (rows t); seq := seq t |}).

Fixpoint map_result {A B} (f : A -> result B) (l : list A) : result (list B) :=
  match l with
  | [] => Ok []
  | x :: l' =>
      y <- f x ;;
      ys <- map_result f l' ;;
      Ok (y :: ys)
  end.

(** [UPDATE expenses SET ... WHERE w]: a constraint failure on any row aborts
    the statement as a whole. *)
Definition sql_update (t : table) (w : expense -> option bool)
    (set : expense -> result expense) : result (nat * table) :=
  rows' <- map_result (fun r => if holds (w r) then set r else Ok r) (rows t) ;;
  Ok (List.length (filter (fun r => holds (w r)) (rows t)),
      {| rows := rows'; seq := seq t |}).

(** [ORDER BY date DESC, id DESC] *)
Definition newest_first (a b : expense) : bool :=
  match textual_compare (date a) (date b) with
  | Gt => true
  | Lt => false
  | Eq => id b <=? id a
  end.

(** [SELECT id, date, amount, category, subcategory, note FROM expenses
    WHERE w ORDER BY date DESC, id DESC] *)
Definition sql_select (t : table) (w : expense -> option bool) : list expense :=
  sort_by newest_first (filter (fun r => holds (w r)) (rows t)).

(** The number SUM() adds for a stored amount *)
Definition amount_value (a : stored_amount) : real :=
  match a with
  | AReal r => r
  | AText s => real_of_prefix s
  | ABlob b => real_of_prefix b
  end.

Definition add_opt (acc : option real) (a : stored_amount) : option real :=
  match acc with
  | Some x => real_add x (amount_value a)
  | None => None
  end.

(** SUM(amount) of a non-empty group: a double, or NULL when it is NaN.  The
    rows of a group are added in rowid order. *)
Definition sql_sum (l : list stored_amount) : option real :=
  fold_left add_opt l (Some (real_of_int 0)).

Definition textual_eq_dec (a b : textual) : {a = b} + {a <> b}.
Proof. decide equality; apply string_dec. Defined.

Definition same_category (k : textual) (r : expense) : bool :=
  is_eq (textual_compare (category r) k).

Definition category_leb (a b : textual) : bool := is_le (textual_compare a b).

(** [ORDER BY total_amount DESC]: NULL sorts below every number *)
Definition larger_total (a b : category_total) : bool :=
  match total_amount a, total_amount b with
  | _, None => true
  | None, Some _ => false
  | Some x, Some y => real_leb y x
  end.

Definition group_of (sel : list expense) (k : textual) : category_total :=
  {| sum_category := k;
     total_amount := sql_sum (map amount (filter (same_category k) sel));
     count := List.length (filter (same_category k) sel) |}.

(** [SELECT category, SUM(amount) AS total_amount, COUNT( * ) AS count
    FROM expenses WHERE w GROUP BY category ORDER BY total_amount DESC].
    GROUP BY walks the selected rows in ascending category order; groups
    with equal totals keep that order. *)
Definition sql_summarize (t : table) (w : expense -> option bool) : list category_total :=
  let sel := filter (fun r => holds (w r)) (rows t) in
  let keys := sort_by category_leb (nodup textual_eq_dec (map category sel)) in
  sort_by larger_total (map (group_of sel) keys).

(** ** The program *)

(** [with sqlite3.connect(DB_PATH) as c: block]: what the block changed is
    committed when it ends normally and rolled back when it raises. *)
Definition transaction {A} (db : database) (block : result (A * table))
    : result A * database :=
  match block with
  | Ok (a, t) => (Ok a, Some t)
  | Raise e => (Raise e, db)
  end.

(** [except Exception as e: return {"status": "error", "message": f"{prefix}{e}"}] *)
Definition or_failure (prefix : string) (p : result response * database)
    : result response * database :=
  (try_except (fst p) (fun e => Ok (Failure (prefix ++ message e))), snd p).

(** [except Exception as e: print(...); raise] *)
Definition or_reraise {A} (p : result A * database) : result A * database :=
  (try_except (fst p) (fun e => Raise e), snd p).

(** [CREATE TABLE IF NOT EXISTS expenses(...)].  The driver opens no
    transaction for it: the table stays created whatever follows. *)
Definition create_table_if_not_exists (db : database) : table :=
  match db with
  | Some t => t
  | None => {| rows := []; seq := 0 |}
  end.

(** [init_db]: creates the table when it is missing, then checks that the
    file can be written by inserting a probe row and deleting it; any
    exception is printed and raised again. *)
Definition init_db (io : option string) (db : database) : result unit * database :=
  or_reraise
    match connect io with
    | Raise e => (Raise e, db)
    | Ok _ =>
        let created := Some (create_table_if_not_exists db) in
        transaction created
          (t <- the_table created ;;
           '(_, t1) <- sql_insert t (Text "2000-01-01") (Integer 0) (Text "test")
                         (Text "") (Text "") ;;
           let '(_, t2) :=
             sql_delete t1
               (fun r => sql_eq (Some (category r)) (text_affinity (Text "test"))) in
           Ok (tt, t2))
    end.

(** The defaults of the optional arguments *)
Definition default_subcategory : pyval := PyStr "".
Definition default_note : pyval := PyStr "".
Definition default_category : pyval := PyNone.
Definition default_new : pyval := PyNone.

Definition add_expense (io : option string) (db : database)
    (date_ amount_ category_ subcategory_ note_ : pyval) : result response * database :=
  or_failure "Database error: "
    (transaction db
       (_ <- connect io ;;
        t <- the_table db ;;
        d <- bind_param date_ ;;
        a <- bind_param amount_ ;;
        c <- bind_param category_ ;;
        s <- bind_param subcategory_ ;;
        n <- bind_param note_ ;;
        '(rowid, t') <- sql_insert t d a c s n ;;
        Ok (Added rowid "Expense added successfully", t'))).

Definition list_expenses (io : option string) (db : database)
    (start_date end_date : pyval) : result response * database :=
  or_failure "Error listing expenses: "
    (transaction db
       (_ <- connect io ;;
        t <- the_table db ;;
        lo <- bind_param start_date ;;
        hi <- bind_param end_date ;;
        Ok (Listing
              (sql_select t (fun r =>
                 sql_between (Some (date r)) (text_affinity lo) (text_affinity hi))),
            t))).

Definition summarize (io : option string) (db : database)
    (start_date end_date category_ : pyval) : result response * database :=
  or_failure "Error summarizing expenses: "
    (transaction db
       (_ <- connect io ;;
        t <- the_table db ;;
        lo <- bind_param start_date ;;
        hi <- bind_param end_date ;;
        if truthy category_ then
          c <- bind_param category_ ;;
          Ok (Summary
                (sql_summarize t (fun r =>
                   sql_and
                     (sql_between (Some (date r)) (text_affinity lo) (text_affinity hi))
                     (sql_eq (Some (category r)) (text_affinity c)))),
              t)
        else
          Ok (Summary
                (sql_summarize t (fun r =>
                   sql_between (Some (date r)) (text_affinity lo) (text_affinity hi))),
              t))).

(** The SET clause of [edit_expense] on one row:
    [amount = ?, date = COALESCE(?, date), subcategory = COALESCE(?, subcategory),
    note = COALESCE(?, note)] *)
Definition edit_row (a nd ns nn : sqlval) (r : expense) : result expense :=
  a' <- not_null "amount" (real_affinity a) ;;
  d' <- not_null "date" (text_affinity (sql_coalesce nd (val_of_textual (date r)))) ;;
  Ok {| id := id r;
        date := d';
        amount := a';
        category := category r;
        subcategory := text_affinity (sql_coalesce ns (val_of_nullable (subcategory r)));
        note := text_affinity (sql_coalesce nn (val_of_nullable (note r))) |}.

Definition edit_expense (io : option string) (db : database)
    (date_ category_ new_amount new_date new_subcategory new_note : pyval)
    : result response * database :=
  or_failure "Error editing expense: "
    (transaction db
       (_ <- connect io ;;
        t <- the_table db ;;
        a <- bind_param new_amount ;;
        nd <- bind_param new_date ;;
        ns <- bind_param new_subcategory ;;
        nn <- bind_param new_note ;;
        d <- bind_param date_ ;;
        c <- bind_param category_ ;;
        '(n, t') <- sql_update t
                      (fun r => sql_and (sql_eq (Some (date r)) (text_affinity d))
                                        (sql_eq (Some (category r)) (text_affinity c)))
                      (edit_row a nd ns nn) ;;
        Ok (Updated n, t'))).

Definition delete_expense (io : option string) (db : database)
    (date_ category_ note_ : pyval) : result response * database :=
  or_failure "Error deleting expense: "
    (transaction db
       (_ <- connect io ;;
        t <- the_table db ;;
        d <- bind_param date_ ;;
        c <- bind_param category_ ;;
        n <- bind_param note_ ;;
        let '(k, t') :=
          sql_delete t
            (fun r => sql_and (sql_and (sql_eq (Some (date r)) (text_affinity d))
                                       (sql_eq (Some (category r)) (text_affinity c)))
                              (sql_eq (note r) (text_affinity n))) in
        Ok (Deleted k, t'))).

(** ** Vocabulary of the statements

    The arguments a caller passes according to the documented types, and the
    sets of records the operations are described with. *)

(** An optional string argument: [None] when it is left out *)
Definition opt_str (o : option string) : pyval :=
  match o with
  | Some s => PyStr s
  | None => PyNone
  end.

(** An optional string argument with a default: the default is what the
    tool receives when the caller leaves the argument out *)
Definition passed (o : option string) (default : pyval) : pyval :=
  match o with
  | Some s => PyStr s
  | None => default
  end.

(** The string that an optional argument defaulting to [""] stands for *)
Definition given (o : option string) : string :=
  match o with
  | Some s => s
  | None => ""
  end.

(** The record's date is a text within [lo, hi], bounds included, in the
    lexicographic order of strings *)
Definition dated_within (lo hi : string) (r : expense) : bool :=
  match date r with
  | Txt s => String.leb lo s && String.leb s hi
  | Bin _ => false
  end.

(** [a] may be listed in front of [b]: later date first, larger id first
    among equal dates *)
Definition listed_before (a b : expense) : Prop :=
  textual_compare (date a) (date b) = Gt \/ (date a = date b /\ id b <= id a).

(** The (date, category) pair and the (date, category, note) triple of a record *)
Definition pair_of (r : expense) : textual * textual := (date r, category r).

Definition triple_of (r : expense) : textual * textual * option textual :=
  (date r, category r, note r).

Definition pair_eq_dec (a b : textual * textual) : {a = b} + {a <> b}.
Proof. decide equality; apply textual_eq_dec. Defined.

Definition triple_eq_dec (a b : textual * textual * option textual) : {a = b} + {a <> b}.
Proof.
  decide equality; [decide equality; apply textual_eq_dec | apply pair_eq_dec].
Defined.

(** What [edit_expense] writes into a matched record *)
Definition edited (a : real) (nd ns nn : option string) (r : expense) : expense :=
  {| id := id r;
     date := match nd with Some x => Txt x | None => date r end;
     amount := AReal a;
     category := category r;
     subcategory := match ns with Some x => Some (Txt x) | None => subcategory r end;
     note := match nn with Some x => Some (Txt x) | None => note r end |}.

(** The record is of category [k] *)
Definition in_category (k : textual) (r : expense) : bool :=
  if textual_eq_dec (category r) k then true else false.

(** The records [summarize] adds up: dated within the range and, when a
    category that is not the empty string is passed, of that category *)
Definition summed (lo hi : string) (c : option string) (r : expense) : bool :=
  dated_within lo hi r &&
  match c with
  | Some k => if (k =? "")%string then true else in_category (Txt k) r
  | None => true
  end.

(** The total of [a] is not below the total of [b]; NULL is below every number *)
Definition total_ge (a b : category_total) : Prop :=
  match total_amount a, total_amount b with
  | _, None => True
  | None, Some _ => False
  | Some x, Some y => real_leb y x = true
  end.

(** A tool's outcome is structured: it returns (raises nothing), and what it
    returns is a success payload of the tool's [shape] or the error dict, in
    which case the database is the one it was given. *)
Definition structured (shape : response -> Prop) (db : database)
    (p : result response * database) : Prop :=
  exists r, fst p = Ok r /\ (shape r \/ (exists m, r = Failure m) /\ snd p = db).

Definition is_pair (d c : string) (r : expense) : bool :=
  if pair_eq_dec (pair_of r) (Txt d, Txt c) then true else false.

Definition is_triple (d c n : string) (r : expense) : bool :=
  if triple_eq_dec (triple_of r) (Txt d, Txt c, Some (Txt n)) then true else false.

(** ** The process

    Loading the module runs [init_db]; when it raises, the import fails and
    no tool is served.  Otherwise the server dispatches each request to its
    tool.  A restart loads the module again, on the same database file. *)

Inductive call :=
| Add (date_ amount_ category_ subcategory_ note_ : pyval)
| ListExpenses (start_date end_date : pyval)
| Summarize (start_date end_date category_ : pyval)
| EditExpense (date_ category_ new_amount new_date new_subcategory new_note : pyval)
| DeleteExpense (date_ category_ note_ : pyval).

(** A request: the call, and the fault of the storage engine during it, if any *)
Definition request : Type := option string * call.

Definition dispatch (io : option string) (c : call) (db : database)
    : result response * database :=
  match c with
  | Add d a k s n => add_expense io db d a k s n
  | ListExpenses lo hi => list_expenses io db lo hi
  | Summarize lo hi k => summarize io db lo hi k
  | EditExpense d k a nd ns nn => edit_expense io db d k a nd ns nn
  | DeleteExpense d k n => delete_expense io db d k n
  end.

(** The requests served in order: their responses and the database left *)
Fixpoint serve (requests : list request) (db : database)
    : list (result response) * database :=
  match requests with
  | [] => ([], db)
  | (io, c) :: rest =>
      let '(r, db1) := dispatch io c db in
      let '(rs, db2) := serve rest db1 in
      (r :: rs, db2)
  end.

(** One life of the process: [init_db()] at load time, then the requests *)
Definition process (io : option string) (requests : list request) (db : database)
    : list (result response) * database :=
  match init_db io db with
  | (Raise _, db') => ([], db')
  | (Ok _, db') => serve requests db'
  end.

(** Successive lives of the process on one database file *)
Fixpoint lives (ps : list (option string * list request)) (db : database)
    : list (result response) * database :=
  match ps with
  | [] => ([], db)
  | (io, requests) :: rest =>
      let '(rs1, db1) := process io requests db in
      let '(rs2, db2) := lives rest db1 in
      ((rs1 ++ rs2)%list, db2)
  end.

(** The ids that the successful [add_expense] calls returned, in order *)
Fixpoint added_ids (rs : list (result response)) : list Z :=
  match rs with
  | [] => []
  | Ok (Added i _) :: rest => i :: added_ids rest
  | _ :: rest => added_ids rest
  end.

(** ** Vocabulary of the further statements *)

(** The rowids of a table are in order: positive, strictly increasing along
    the rows, none above the AUTOINCREMENT counter *)
Definition ids_ok (t : table) : Prop :=
  StronglySorted Z.lt (map id (rows t)) /\
  Forall (fun i => 0 < i <= seq t) (map id (rows t)).

Definition db_ok (db : database) : Prop :=
  match db with
  | Some t => ids_ok t
  | None => True
  end.

(** The AUTOINCREMENT counter of a database; 0 while there is no table *)
Definition counter (db : database) : Z :=
  match db with
  | Some t => seq t
  | None => 0
  end.

(** The records of a database; none while there is no table *)
Definition records (db : database) : list expense :=
  match db with
  | Some t => rows t
  | None => []
  end.

End Ledger.

(** ** Sample ledgers, over the exact numbers *)

Definition lunch : expense :=
  {| id := 2; date := Txt "2024-01-01"; amount := AReal (25 # 2)%Q;
     category := Txt "Food & Dining"; subcategory := Some (Txt ""); note := Some (Txt "") |}.

Definition unfiled : expense :=
  {| id := 3; date := Txt "2024-01-02"; amount := AReal 4%Q;
     category := Txt ""; subcategory := Some (Txt ""); note := Some (Txt "cash") |}.

Definition january : table := {| rows := [lunch; unfiled]; seq := 3 |}.

(** A record in the category that [init_db] uses for its probe, without
    subcategory and note *)
Definition trial : expense :=
  {| id := 4; date := Txt "2024-01-03"; amount := AReal 1%Q;
     category := Txt "test"; subcategory := None; note := None |}.

Definition january_on_trial : table := {| rows := [lunch; unfiled; trial]; seq := 4 |}.

(** A ledger whose last rowid has been used *)
Definition exhausted : table := {| rows := [lunch]; seq := max_rowid |}.

(** * Properties *)

(** ** Bytewise order on strings *)

Lemma ascii_compare_refl (a : ascii) : Ascii.compare a a = Eq.
Proof. unfold Ascii.compare. apply N.compare_refl. Qed.

Lemma ascii_compare_lt_trans (a b c : ascii) :
  Ascii.compare a b = Lt -> Ascii.compare b c = Lt -> Ascii.compare a c = Lt.
Proof.
  unfold Ascii.compare. rewrite !N.compare_lt_iff. apply N.lt_trans.
Qed.

Lemma string_compare_refl (s : string) : String.compare s s = Eq.
Proof.
  induction s as [| a s IH]; simpl; [reflexivity |].
  rewrite ascii_compare_refl. exact IH.
Qed.

Lemma string_compare_lt_trans (a b c : string) :
  String.compare a b = Lt -> String.compare b c = Lt -> String.compare a c = Lt.
Proof.
  revert b c. induction a as [| x a IH]; intros [| y b] [| z c]; simpl;
    try discriminate; try reflexivity.
  destruct (Ascii.compare x y) eqn:Hxy; try discriminate;
    destruct (Ascii.compare y z) eqn:Hyz; try discriminate; intros Hab Hbc.
  - apply Ascii.compare_eq_iff in Hxy, Hyz. subst.
    rewrite ascii_compare_refl. eapply IH; eassumption.
  - apply Ascii.compare_eq_iff in Hxy. subst. rewrite Hyz. reflexivity.
  - apply Ascii.compare_eq_iff in Hyz. subst. rewrite Hxy. reflexivity.
  - rewrite (ascii_compare_lt_trans _ _ _ Hxy Hyz). reflexivity.
Qed.

Lemma string_leb_trans (a b c : string) :
  String.leb a b = true -> String.leb b c = true -> String.leb a c = true.
Proof.
  unfold String.leb.
  destruct (String.compare a b) eqn:Hab; try discriminate;
    destruct (String.compare b c) eqn:Hbc; try discriminate; intros _ _.
  - apply String.compare_eq_iff in Hab, Hbc. subst. now rewrite string_compare_refl.
  - apply String.compare_eq_iff in Hab. subst. now rewrite Hbc.
  - apply String.compare_eq_iff in Hbc. subst. now rewrite Hab.
  - now rewrite (string_compare_lt_trans _ _ _ Hab Hbc).
Qed.

(** ** The insertion sort *)

Section SortFacts.
Context {A : Type}.
Variable before : A -> A -> bool.

Lemma insert_by_perm (x : A) (l : list A) :
  Permutation (insert_by before x l) (x :: l).
Proof.
  induction l as [| y l IH]; simpl; [reflexivity |].
  destruct (before x y); [reflexivity |].
  rewrite IH. apply perm_swap.
Qed.

Lemma sort_by_perm (l : list A) : Permutation (sort_by before l) l.
Proof.
  induction l as [| x l IH]; simpl; [reflexivity |].
  rewrite insert_by_perm. now constructor.
Qed.

Lemma sort_by_in (l : list A) (x : A) : In x (sort_by before l) <-> In x l.
Proof.
  split; apply Permutation_in; [| symmetry]; apply sort_by_perm.
Qed.

Hypothesis before_total : forall a b, before a b = true \/ before b a = true.
Hypothesis before_trans :
  forall a b c, before a b = true -> before b c = true -> before a c = true.

Lemma insert_by_sorted (x : A) (l : list A) :
  StronglySorted (fun a b => before a b = true) l ->
  StronglySorted (fun a b => before a b = true) (insert_by before x l).
Proof.
  induction 1 as [| y l Hs IH Hy]; simpl.
  - repeat constructor.
  - destruct (before x y) eqn:Hxy.
    + constructor; [now constructor |].
      constructor; [exact Hxy |].
      eapply Forall_impl; [| exact Hy]. intros z Hz. eapply before_trans; eassumption.
    + constructor; [exact IH |].
      apply Forall_forall. intros z Hz.
      apply (Permutation_in _ (insert_by_perm x l)) in Hz.
      destruct Hz as [<- | Hz].
      * destruct (before_total x y) as [H | H]; congruence.
      * rewrite Forall_forall in Hy. now apply Hy.
Qed.

Lemma sort_by_sorted (l : list A) :
  StronglySorted (fun a b => before a b = true) (sort_by before l).
Proof.
  induction l as [| x l IH]; simpl; [constructor |].
  now apply insert_by_sorted.
Qed.

End SortFacts.

Section LedgerFacts.
Context {F : Float64}.

(** ** Order on the values of a TEXT column *)

Lemma textual_compare_refl (x : textual) : textual_compare x x = Eq.
Proof. destruct x; simpl; apply string_compare_refl. Qed.

Lemma textual_compare_eq (x y : textual) : textual_compare x y = Eq -> x = y.
Proof.
  destruct x, y; simpl; try discriminate; intros H;
    apply String.compare_eq_iff in H; now subst.
Qed.

Lemma textual_compare_antisym (x y : textual) :
  textual_compare x y = CompOpp (textual_compare y x).
Proof. destruct x, y; simpl; try reflexivity; apply String.compare_antisym. Qed.

Lemma textual_compare_lt_trans (x y z : textual) :
  textual_compare x y = Lt -> textual_compare y z = Lt -> textual_compare x z = Lt.
Proof.
  destruct x, y, z; simpl; try discriminate; try reflexivity;
    apply string_compare_lt_trans.
Qed.

Lemma textual_compare_gt_trans (x y z : textual) :
  textual_compare x y = Gt -> textual_compare y z = Gt -> textual_compare x z = Gt.
Proof.
  rewrite (textual_compare_antisym x y), (textual_compare_antisym y z),
    (textual_compare_antisym x z).
  destruct (textual_compare y x) eqn:Hyx; try discriminate.
  destruct (textual_compare z y) eqn:Hzy; try discriminate.
  intros _ _. now rewrite (textual_compare_lt_trans _ _ _ Hzy Hyx).
Qed.

Lemma is_eq_textual (x y : textual) : is_eq (textual_compare x y) = true <-> x = y.
Proof.
  split.
  - destruct (textual_compare x y) eqn:H; try discriminate.
    intros _. now apply textual_compare_eq.
  - intros ->. now rewrite textual_compare_refl.
Qed.

Lemma newest_first_total (a b : expense) :
  newest_first a b = true \/ newest_first b a = true.
Proof.
  unfold newest_first. rewrite (textual_compare_antisym (date b) (date a)).
  destruct (textual_compare (date a) (date b)); simpl; auto.
  rewrite !Z.leb_le. lia.
Qed.

Lemma newest_first_trans (a b c : expense) :
  newest_first a b = true -> newest_first b c = true -> newest_first a c = true.
Proof.
  unfold newest_first.
  destruct (textual_compare (date a) (date b)) eqn:Hab; try discriminate;
    destruct (textual_compare (date b) (date c)) eqn:Hbc; try discriminate.
  - apply textual_compare_eq in Hab, Hbc. rewrite Hab, Hbc, textual_compare_refl.
    rewrite !Z.leb_le. lia.
  - apply textual_compare_eq in Hab. now rewrite Hab, Hbc.
  - apply textual_compare_eq in Hbc. now rewrite <- Hbc, Hab.
  - now rewrite (textual_compare_gt_trans _ _ _ Hab Hbc).
Qed.

Lemma larger_total_total (a b : category_total) :
  larger_total a b = true \/ larger_total b a = true.
Proof.
  unfold larger_total.
  destruct (total_amount a), (total_amount b); auto using real_leb_total.
Qed.

Lemma larger_total_trans (a b c : category_total) :
  larger_total a b = true -> larger_total b c = true -> larger_total a c = true.
Proof.
  unfold larger_total.
  destruct (total_amount a), (total_amount b), (total_amount c);
    try discriminate; auto.
  intros Hab Hbc. eapply real_leb_trans; eassumption.
Qed.

(** ** Three-valued conditions *)

Lemma holds_and (a b : option bool) : holds (sql_and a b) = holds a && holds b.
Proof. destruct a as [[|]|], b as [[|]|]; reflexivity. Qed.

Lemma holds_eq (a : option textual) (y : textual) :
  holds (sql_eq a (Some y)) = true <-> a = Some y.
Proof.
  destruct a as [x |]; simpl.
  - change (holds (Some (is_eq (textual_compare x y)))) with
      (if is_eq (textual_compare x y) then true else false).
    destruct (is_eq (textual_compare x y)) eqn:H.
    + apply is_eq_textual in H. subst. tauto.
    + split; [discriminate |]. intros [= ->].
      rewrite textual_compare_refl in H. discriminate.
  - split; discriminate.
Qed.

(** ** Plumbing of the tools *)

Lemma bind_result_ok {A B} (m : result A) (k : A -> result B) (b : B) :
  bind_result m k = Ok b -> exists a, m = Ok a /\ k a = Ok b.
Proof. destruct m as [a | e]; simpl; [eauto | discriminate]. Qed.

Lemma map_result_total {A B} (f : A -> result B) (g : A -> B) (l : list A) :
  (forall x, In x l -> f x = Ok (g x)) -> map_result f l = Ok (map g l).
Proof.
  induction l as [| x l IH]; simpl; intros H; [reflexivity |].
  rewrite (H x (or_introl eq_refl)). simpl.
  rewrite IH by (intros y Hy; apply H; now right). reflexivity.
Qed.

Lemma filter_none {A} (f : A -> bool) (l : list A) :
  (forall x, In x l -> f x = false) -> filter f l = [].
Proof.
  induction l as [| x l IH]; simpl; intros H; [reflexivity |].
  rewrite (H x (or_introl eq_refl)). apply IH. intros y Hy. apply H. now right.
Qed.

Lemma StronglySorted_weaken {A} (R R' : A -> A -> Prop) (l : list A) :
  (forall a b, R a b -> R' a b) -> StronglySorted R l -> StronglySorted R' l.
Proof.
  intros HR. induction 1 as [| x l Hs IH Hx]; constructor; [exact IH |].
  eapply Forall_impl; [| exact Hx]. intros b. apply HR.
Qed.

Lemma newest_first_listed_before (a b : expense) :
  newest_first a b = true -> listed_before a b.
Proof.
  unfold newest_first, listed_before.
  destruct (textual_compare (date a) (date b)) eqn:H; try discriminate.
  - intros Hid. right. split; [now apply textual_compare_eq | now apply Z.leb_le].
  - intros _. now left.
Qed.

Lemma sql_select_sorted (t : table) (w : expense -> option bool) :
  StronglySorted listed_before (sql_select t w).
Proof.
  eapply StronglySorted_weaken; [exact newest_first_listed_before |].
  apply sort_by_sorted; [exact newest_first_total | exact newest_first_trans].
Qed.

(** [date BETWEEN lo AND hi] on text bounds *)
Lemma holds_between_text (x : textual) (lo hi : string) :
  holds (sql_between (Some x) (Some (Txt lo)) (Some (Txt hi)))
  = match x with
    | Txt s => String.leb lo s && String.leb s hi
    | Bin _ => false
    end.
Proof.
  unfold sql_between. rewrite holds_and. destruct x as [s | b]; simpl.
  - unfold String.leb. rewrite (String.compare_antisym s lo).
    destruct (String.compare lo s), (String.compare s hi); reflexivity.
  - reflexivity.
Qed.

Lemma within_range_bounds (lo hi : string) (r : expense) :
  dated_within lo hi r = true -> String.leb lo hi = true.
Proof.
  unfold dated_within. destruct (date r) as [s | b]; [| discriminate].
  rewrite andb_true_iff. intros [H1 H2]. eapply string_leb_trans; eassumption.
Qed.

(** C3: on any ledger, [list_expenses] called with two strings returns, without
    error, exactly the records whose date is a text within the closed range
    (each once, as a permutation of the matching rows), later dates first and
    larger ids first among equal dates; the list is empty when no record
    matches and when the range is empty. *)
Theorem list_expenses_range (t : table) (lo hi : string) :
  exists l,
    list_expenses None (Some t) (PyStr lo) (PyStr hi) = (Ok (Listing l), Some t) /\
    Permutation l (filter (dated_within lo hi) (rows t)) /\
    StronglySorted listed_before l /\
    ((forall r, In r (rows t) -> dated_within lo hi r = false) -> l = []) /\
    (String.ltb hi lo = true -> l = []).
Proof.
  set (w := fun r : expense =>
              sql_between (Some (date r)) (text_affinity (Text lo)) (text_affinity (Text hi))).
  assert (Hw : filter (fun r => holds (w r)) (rows t) = filter (dated_within lo hi) (rows t)).
  { apply filter_ext. intros r. unfold w, dated_within. simpl.
    apply holds_between_text. }
  assert (Hp : Permutation (sql_select t w) (filter (dated_within lo hi) (rows t))).
  { unfold sql_select. rewrite Hw. apply sort_by_perm. }
  assert (Hnone : (forall r, In r (rows t) -> dated_within lo hi r = false) ->
                  sql_select t w = []).
  { intros Hno. apply Permutation_nil. symmetry. rewrite Hp.
    now rewrite filter_none. }
  exists (sql_select t w). repeat split.
  - exact Hp.
  - apply sql_select_sorted.
  - exact Hnone.
  - intros Hempty. apply Hnone. intros r _.
    destruct (dated_within lo hi r) eqn:Hr; [| reflexivity].
    apply within_range_bounds in Hr. unfold String.leb in Hr. unfold String.ltb in Hempty.
    rewrite (String.compare_antisym hi lo) in Hempty.
    destruct (String.compare lo hi); simpl in *; discriminate.
Qed.

(** ** Edit *)

Lemma text_affinity_stored (x : textual) : text_affinity (val_of_textual x) = Some x.
Proof. now destruct x. Qed.

Lemma text_affinity_nullable (x : option textual) : text_affinity (val_of_nullable x) = x.
Proof. destruct x as [x |]; [apply text_affinity_stored | reflexivity]. Qed.

Lemma bind_param_opt_str (o : option string) :
  bind_param (opt_str o) = Ok match o with Some x => Text x | None => Null end.
Proof. now destruct o. Qed.

(** The WHERE clause [date = ? AND category = ?] on two strings *)
Lemma holds_pair (d c : string) (r : expense) :
  holds (sql_and (sql_eq (Some (date r)) (text_affinity (Text d)))
                 (sql_eq (Some (category r)) (text_affinity (Text c))))
  = is_pair d c r.
Proof.
  rewrite holds_and. unfold is_pair, pair_of. simpl text_affinity.
  destruct (pair_eq_dec (date r, category r) (Txt d, Txt c)) as [E | E].
  - injection E as Hd Hc. apply andb_true_iff. split; apply holds_eq; congruence.
  - apply andb_false_iff.
    destruct (holds (sql_eq (Some (date r)) (Some (Txt d)))) eqn:Hd; [| now left].
    destruct (holds (sql_eq (Some (category r)) (Some (Txt c)))) eqn:Hc; [| now right].
    apply holds_eq in Hd, Hc. exfalso. apply E. congruence.
Qed.

Lemma count_is_pair (d c : string) (l : list expense) :
  List.length (filter (is_pair d c) l)
  = count_occ pair_eq_dec (map pair_of l) (Txt d, Txt c).
Proof.
  induction l as [| r l IH]; [reflexivity |].
  cbn [filter map count_occ]. unfold is_pair at 1.
  destruct (pair_eq_dec (pair_of r) (Txt d, Txt c)); cbn [List.length]; now rewrite IH.
Qed.

Lemma edit_row_strings (a : real) (nd ns nn : option string) (r : expense) :
  edit_row (Real a)
    match nd with Some x => Text x | None => Null end
    match ns with Some x => Text x | None => Null end
    match nn with Some x => Text x | None => Null end r
  = Ok (edited a nd ns nn r).
Proof.
  unfold edit_row, edited.
  destruct nd, ns, nn; simpl;
    rewrite ?text_affinity_stored, ?text_affinity_nullable; reflexivity.
Qed.

Lemma Forall2_map_right {A B} (R : A -> B -> Prop) (g : A -> B) (l : list A) :
  (forall x, In x l -> R x (g x)) -> Forall2 R l (map g l).
Proof.
  induction l as [| x l IH]; simpl; intros H; constructor.
  - apply H. now left.
  - apply IH. intros y Hy. apply H. now right.
Qed.

(** C1: [edit_expense] called with strings for the date and the category, a
    number for the new amount and optional strings for the other fields
    succeeds; it reports the number of records whose (date, category) is the
    given pair; each such record gets the new amount whatever else is passed,
    keeps its id and category, and has its date, subcategory and note replaced
    when the argument is present and kept when it is absent; every other record
    is left as it was, and so is the row counter. *)
Theorem edit_expense_partial_update
    (t : table) (d c : string) (a : real) (nd ns nn : option string) :
  exists t',
    edit_expense None (Some t) (PyStr d) (PyStr c) (PyFloat (Some a))
      (opt_str nd) (opt_str ns) (opt_str nn)
    = (Ok (Updated (count_occ pair_eq_dec (map pair_of (rows t)) (Txt d, Txt c))), Some t') /\
    seq t' = seq t /\
    Forall2 (fun r r' =>
               if is_pair d c r then
                 id r' = id r /\ category r' = category r /\ amount r' = AReal a /\
                 date r' = match nd with Some x => Txt x | None => date r end /\
                 subcategory r' =
                   match ns with Some x => Some (Txt x) | None => subcategory r end /\
                 note r' = match nn with Some x => Some (Txt x) | None => note r end
               else r' = r)
            (rows t) (rows t').
Proof.
  set (g := fun r => if is_pair d c r then edited a nd ns nn r else r).
  exists {| rows := map g (rows t); seq := seq t |}. split; [| split].
  - unfold edit_expense. cbn [connect the_table bind_result bind_param].
    rewrite !bind_param_opt_str. cbn [bind_result]. unfold sql_update.
    rewrite (map_result_total _ g).
    + cbn [bind_result transaction or_failure try_except fst snd].
      rewrite <- count_is_pair.
      rewrite (filter_ext _ (is_pair d c)) by (intros r; apply holds_pair).
      reflexivity.
    + intros r _. rewrite holds_pair. unfold g.
      destruct (is_pair d c r); [apply edit_row_strings | reflexivity].
  - reflexivity.
  - simpl. apply Forall2_map_right. intros r _. unfold g.
    destruct (is_pair d c r); [| reflexivity].
    unfold edited. simpl. repeat split.
Qed.

(** ** Delete *)

(** The WHERE clause [date = ? AND category = ? AND note = ?] on three strings *)
Lemma holds_triple (d c n : string) (r : expense) :
  holds (sql_and (sql_and (sql_eq (Some (date r)) (text_affinity (Text d)))
                          (sql_eq (Some (category r)) (text_affinity (Text c))))
                 (sql_eq (note r) (text_affinity (Text n))))
  = is_triple d c n r.
Proof.
  rewrite holds_and, holds_pair. unfold is_triple, is_pair, triple_of, pair_of.
  simpl text_affinity.
  destruct (triple_eq_dec (date r, category r, note r) (Txt d, Txt c, Some (Txt n)))
    as [E | E].
  - injection E as Hd Hc Hn.
    destruct (pair_eq_dec (date r, category r) (Txt d, Txt c)) as [_ | E']; [| congruence].
    apply holds_eq. exact Hn.
  - destruct (pair_eq_dec (date r, category r) (Txt d, Txt c)) as [E' | _]; [| reflexivity].
    destruct (holds (sql_eq (note r) (Some (Txt n)))) eqn:Hn; [| reflexivity].
    apply holds_eq in Hn. exfalso. apply E. congruence.
Qed.

Lemma count_is_triple (d c n : string) (l : list expense) :
  List.length (filter (is_triple d c n) l)
  = count_occ triple_eq_dec (map triple_of l) (Txt d, Txt c, Some (Txt n)).
Proof.
  induction l as [| r l IH]; [reflexivity |].
  cbn [filter map count_occ]. unfold is_triple at 1.
  destruct (triple_eq_dec (triple_of r) (Txt d, Txt c, Some (Txt n)));
    cbn [List.length]; now rewrite IH.
Qed.

Lemma delete_expense_strings (t : table) (d c n : string) :
  delete_expense None (Some t) (PyStr d) (PyStr c) (PyStr n)
  = (Ok (Deleted (count_occ triple_eq_dec (map triple_of (rows t))
                    (Txt d, Txt c, Some (Txt n)))),
     Some {| rows := filter (fun r => negb (is_triple d c n r)) (rows t); seq := seq t |}).
Proof.
  unfold delete_expense, sql_delete.
  cbn [connect the_table bind_result bind_param transaction or_failure try_except fst snd].
  rewrite <- count_is_triple.
  rewrite (filter_ext _ (is_triple d c n)) by (intros r; apply holds_triple).
  rewrite (filter_ext (fun r => negb (holds _)) (fun r => negb (is_triple d c n r)))
    by (intros r; now rewrite holds_triple).
  reflexivity.
Qed.

(** C5: [delete_expense] called with strings for the date and the category
    and a string or nothing for the note (nothing stands for the default, the
    empty string) succeeds and reports the number of records whose
    (date, category, note) is exactly that triple; those records are gone,
    every other record stays in place and unchanged; so a record with the
    same date and category but another note stays, and with the note left out
    that is every record whose note is not the empty string. *)
Theorem delete_expense_exact (t : table) (d c : string) (n : option string) :
  exists t',
    delete_expense None (Some t) (PyStr d) (PyStr c) (passed n default_note)
    = (Ok (Deleted (count_occ triple_eq_dec (map triple_of (rows t))
                      (Txt d, Txt c, Some (Txt (given n))))),
       Some t') /\
    rows t' = filter (fun r => negb (is_triple d c (given n) r)) (rows t) /\
    seq t' = seq t /\
    (forall r, In r (rows t) -> date r = Txt d -> category r = Txt c ->
               note r <> Some (Txt (given n)) -> In r (rows t')).
Proof.
  exists {| rows := filter (fun r => negb (is_triple d c (given n) r)) (rows t);
            seq := seq t |}.
  split; [| split; [reflexivity | split; [reflexivity |]]].
  - destruct n as [n |]; apply delete_expense_strings.
  - intros r Hin _ _ Hn. cbn [rows]. apply filter_In. split; [exact Hin |].
    unfold is_triple, triple_of.
    destruct (triple_eq_dec (date r, category r, note r)
                (Txt d, Txt c, Some (Txt (given n)))) as [E | _]; [| reflexivity].
    exfalso. apply Hn. congruence.
Qed.

(** ** Edit with no amount *)

Lemma map_result_untouched {A} (w : A -> bool) (set : A -> result A) (l : list A) :
  (forall x, In x l -> w x = false) ->
  map_result (fun r => if w r then set r else Ok r) l = Ok l.
Proof.
  induction l as [| x l IH]; simpl; intros H; [reflexivity |].
  rewrite (H x (or_introl eq_refl)). simpl.
  rewrite IH by (intros y Hy; apply H; now right). reflexivity.
Qed.

Lemma map_result_aborts {A} (w : A -> bool) (set : A -> result A) (e : exn) (l : list A) :
  (forall x, set x = Raise e) ->
  (exists x, In x l /\ w x = true) ->
  map_result (fun r => if w r then set r else Ok r) l = Raise e.
Proof.
  intros Hset. induction l as [| x l IH]; simpl; intros [y [Hy Hw]]; [contradiction |].
  destruct (w x) eqn:Hx.
  - now rewrite Hset.
  - simpl. destruct Hy as [-> | Hy]; [congruence |].
    rewrite IH by eauto. reflexivity.
Qed.

(** C10: [edit_expense] called with [None] for the new amount (the other
    arguments as documented) stores no NULL amount: when some record has the
    given (date, category) it returns the error dict for the violated NOT NULL
    constraint and the ledger is exactly what it was; when none has, it
    returns success with [updated_rows] 0, the ledger unchanged as well. *)
Theorem edit_expense_null_amount (t : table) (d c : string) (nd ns nn : option string) :
  ((exists r, In r (rows t) /\ date r = Txt d /\ category r = Txt c) ->
   edit_expense None (Some t) (PyStr d) (PyStr c) PyNone (opt_str nd) (opt_str ns) (opt_str nn)
   = (Ok (Failure "Error editing expense: NOT NULL constraint failed: expenses.amount"),
      Some t)) /\
  ((forall r, In r (rows t) -> ~ (date r = Txt d /\ category r = Txt c)) ->
   edit_expense None (Some t) (PyStr d) (PyStr c) PyNone (opt_str nd) (opt_str ns) (opt_str nn)
   = (Ok (Updated 0), Some t)).
Proof.
  split; intros H; unfold edit_expense;
    cbn [connect the_table bind_result bind_param];
    rewrite !bind_param_opt_str; cbn [bind_result]; unfold sql_update.
  - rewrite (map_result_aborts _ _
               (Exn IntegrityError "NOT NULL constraint failed: expenses.amount")).
    + reflexivity.
    + intros r. reflexivity.
    + destruct H as [r [Hin [Hd Hc]]]. exists r. split; [exact Hin |].
      rewrite holds_pair. unfold is_pair, pair_of.
      destruct (pair_eq_dec (date r, category r) (Txt d, Txt c)); congruence.
  - assert (Hno : forall r, In r (rows t) ->
                    holds (sql_and (sql_eq (Some (date r)) (text_affinity (Text d)))
                             (sql_eq (Some (category r)) (text_affinity (Text c)))) = false).
    { intros r Hin. rewrite holds_pair. unfold is_pair, pair_of.
      destruct (pair_eq_dec (date r, category r) (Txt d, Txt c)) as [E | _]; [| reflexivity].
      exfalso. apply (H r Hin). split; congruence. }
    rewrite map_result_untouched by exact Hno.
    cbn [bind_result]. rewrite (filter_none _ _ Hno).
    destruct t; reflexivity.
Qed.

(** ** Add, then list *)

Lemma rowid_le_largest (t : table) (r : expense) :
  In r (rows t) -> id r <= largest_rowid t.
Proof.
  unfold largest_rowid. intros Hin.
  enough (id r <= fold_right Z.max 0 (map id (rows t))) by lia.
  induction (rows t) as [| x l IH]; simpl; [contradiction |].
  destruct Hin as [-> | Hin]; [lia |]. specialize (IH Hin). lia.
Qed.

(** [list_expenses] on two strings: the matching rows, in some order *)
Lemma list_expenses_strings (t : table) (lo hi : string) :
  exists l,
    list_expenses None (Some t) (PyStr lo) (PyStr hi) = (Ok (Listing l), Some t) /\
    Permutation l (filter (dated_within lo hi) (rows t)).
Proof.
  eexists. split; [reflexivity |].
  unfold sql_select. rewrite sort_by_perm.
  rewrite (filter_ext _ (dated_within lo hi)); [reflexivity |].
  intros r. unfold dated_within. cbn [bind_param text_affinity].
  apply holds_between_text.
Qed.

(** C7: while rowids are left, [add_expense] called with strings for the date
    and the category, a number for the amount and a string or nothing for the
    subcategory and for the note (nothing stands for the default, the empty
    string) succeeds with an id that no record of the ledger has, and a
    following [list_expenses] over any range of strings that contains the date
    returns the new record: that id, and the date, amount, category,
    subcategory and note as they were passed; it is the only listed record
    with that id. *)
Theorem add_then_list
    (t : table) (d c : string) (sc n : option string) (a : real) (lo hi : string) :
  largest_rowid t < max_rowid ->
  String.leb lo d = true ->
  String.leb d hi = true ->
  exists i t' l,
    add_expense None (Some t) (PyStr d) (PyFloat (Some a)) (PyStr c)
      (passed sc default_subcategory) (passed n default_note)
    = (Ok (Added i "Expense added successfully"), Some t') /\
    ~ In i (map id (rows t)) /\
    list_expenses None (Some t') (PyStr lo) (PyStr hi) = (Ok (Listing l), Some t') /\
    In {| id := i; date := Txt d; amount := AReal a; category := Txt c;
          subcategory := Some (Txt (given sc)); note := Some (Txt (given n)) |} l /\
    (forall r, In r l -> id r = i ->
               r = {| id := i; date := Txt d; amount := AReal a; category := Txt c;
                      subcategory := Some (Txt (given sc));
                      note := Some (Txt (given n)) |}).
Proof.
  intros Hroom Hlo Hhi.
  set (i := largest_rowid t + 1).
  set (new := {| id := i; date := Txt d; amount := AReal a; category := Txt c;
                 subcategory := Some (Txt (given sc)); note := Some (Txt (given n)) |}).
  set (t' := {| rows := rows t ++ [new]; seq := i |}).
  assert (Hfresh : forall r, In r (rows t) -> id r <> i).
  { intros r Hr. apply rowid_le_largest in Hr. unfold i. lia. }
  destruct (list_expenses_strings t' lo hi) as [l [Hl Hperm]].
  exists i, t', l. split; [| split; [| split; [exact Hl | split]]].
  - unfold add_expense. cbn [connect the_table bind_result bind_param].
    assert (Hsc : bind_param (passed sc default_subcategory) = Ok (Text (given sc)))
      by now destruct sc.
    assert (Hn : bind_param (passed n default_note) = Ok (Text (given n)))
      by now destruct n.
    rewrite Hsc, Hn. cbn [bind_result]. unfold sql_insert, next_rowid.
    apply Z.ltb_lt in Hroom. rewrite Hroom. reflexivity.
  - intros Hin. apply in_map_iff in Hin. destruct Hin as [r [Hid Hr]].
    now apply (Hfresh r Hr).
  - apply (Permutation_in _ (Permutation_sym Hperm)). apply filter_In. split.
    + cbn [rows t']. apply in_or_app. right. now left.
    + unfold dated_within. cbn [date new]. now rewrite Hlo, Hhi.
  - intros r Hr Hid. apply (Permutation_in _ Hperm) in Hr. apply filter_In in Hr.
    destruct Hr as [Hr _]. cbn [rows t'] in Hr. apply in_app_or in Hr.
    destruct Hr as [Hr | [<- | []]]; [| reflexivity].
    exfalso. now apply (Hfresh r Hr).
Qed.

(** ** The tools never raise *)

Lemma or_failure_structured (shape : response -> Prop) (prefix : string)
    (db : database) (block : result (response * table)) :
  (forall r t', block = Ok (r, t') -> shape r) ->
  structured shape db (or_failure prefix (transaction db block)).
Proof.
  intros H. unfold structured, or_failure, transaction.
  destruct block as [[r t'] | e]; simpl.
  - exists r. split; [reflexivity |]. left. now apply (H r t').
  - eexists. split; [reflexivity |]. right. split; [eauto | reflexivity].
Qed.

(** From [H : (x <- m ;; ...) = Ok v], the last step of the block *)
Ltac unbind H :=
  repeat (apply bind_result_ok in H; destruct H as [? [_ H]]).

Ltac last_step H :=
  repeat match type of H with
         | context [match ?p with pair _ _ => _ end] => destruct p
         end;
  injection H as <- _; eauto.

(** C9: whatever the five tools are called with (any Python values, any
    database, with or without the table, the storage engine failing or not),
    each of them returns: the success payload of its kind or the error dict
    with a message, never an exception; on the error dict the database is
    left as it was. *)
Theorem tools_never_raise (io : option string) (db : database)
    (v1 v2 v3 v4 v5 v6 : pyval) :
  structured (fun r => exists i m, r = Added i m) db (add_expense io db v1 v2 v3 v4 v5) /\
  structured (fun r => exists l, r = Listing l) db (list_expenses io db v1 v2) /\
  structured (fun r => exists g, r = Summary g) db (summarize io db v1 v2 v3) /\
  structured (fun r => exists k, r = Updated k) db (edit_expense io db v1 v2 v3 v4 v5 v6) /\
  structured (fun r => exists k, r = Deleted k) db (delete_expense io db v1 v2 v3).
Proof.
  repeat split; apply or_failure_structured; intros r t' H; unbind H.
  - last_step H.
  - last_step H.
  - destruct (truthy v3); unbind H; last_step H.
  - last_step H.
  - last_step H.
Qed.

(** ** Summarize *)

Lemma filter_filter {A} (f g : A -> bool) (l : list A) :
  filter f (filter g l) = filter (fun x => g x && f x) l.
Proof.
  induction l as [| x l IH]; simpl; [reflexivity |].
  destruct (g x); simpl; [destruct (f x) |]; now rewrite IH.
Qed.

Lemma same_category_in_category (k : textual) (r : expense) :
  same_category k r = in_category k r.
Proof.
  unfold same_category, in_category.
  destruct (textual_eq_dec (category r) k) as [E | E].
  - now apply is_eq_textual.
  - destruct (is_eq (textual_compare (category r) k)) eqn:H; [| reflexivity].
    apply is_eq_textual in H. contradiction.
Qed.

(** The groups that the GROUP BY statement builds from the selected rows *)
Lemma sql_summarize_groups (t : table) (w : expense -> option bool) (sel : expense -> bool) :
  (forall r, holds (w r) = sel r) ->
  let gs := sql_summarize t w in
  NoDup (map sum_category gs) /\
  (forall k, In k (map sum_category gs) <->
             exists r, In r (rows t) /\ sel r = true /\ category r = k) /\
  (forall g, In g gs ->
     count g = List.length (filter (fun r => sel r && in_category (sum_category g) r) (rows t)) /\
     total_amount g
     = sql_sum (map amount
                  (filter (fun r => sel r && in_category (sum_category g) r) (rows t))) /\
     (0 < count g)%nat) /\
  StronglySorted total_ge gs.
Proof.
  intros Hw. cbv zeta. unfold sql_summarize.
  rewrite (filter_ext _ sel Hw).
  set (rs := filter sel (rows t)).
  set (keys := sort_by category_leb (nodup textual_eq_dec (map category rs))).
  set (gs := sort_by larger_total (map (group_of rs) keys)).
  assert (Hkeys : forall k, In k keys <->
                    exists r, In r (rows t) /\ sel r = true /\ category r = k).
  { intros k. unfold keys. rewrite sort_by_in, nodup_In, in_map_iff. unfold rs.
    split; intros [r H]; exists r; rewrite filter_In in *; tauto. }
  assert (Hcats : Permutation (map sum_category gs) keys).
  { unfold gs. rewrite sort_by_perm, map_map. cbn [group_of sum_category].
    now rewrite map_id. }
  assert (Hsame : forall k,
            filter (same_category k) rs
            = filter (fun r => sel r && in_category k r) (rows t)).
  { intros k. unfold rs. rewrite filter_filter. apply filter_ext. intros r.
    now rewrite same_category_in_category. }
  split; [| split; [| split]].
  - apply (Permutation_NoDup (Permutation_sym Hcats)).
    apply (Permutation_NoDup (Permutation_sym (sort_by_perm _ _))).
    apply NoDup_nodup.
  - intros k. rewrite <- Hkeys. split; apply Permutation_in; [| symmetry]; exact Hcats.
  - intros g Hg. apply sort_by_in, in_map_iff in Hg. destruct Hg as [k [<- Hk]].
    cbn [group_of sum_category count total_amount]. rewrite Hsame.
    split; [reflexivity | split; [reflexivity |]].
    apply Hkeys in Hk. destruct Hk as [r [Hin [Hsel Hcat]]].
    assert (Hr : In r (filter (fun r => sel r && in_category k r) (rows t))).
    { apply filter_In. split; [exact Hin |]. rewrite Hsel. unfold in_category.
      now destruct (textual_eq_dec (category r) k). }
    revert Hr. generalize (filter (fun r => sel r && in_category k r) (rows t)).
    intros [| y l] Hr; [contradiction | simpl; lia].
  - eapply StronglySorted_weaken;
      [| apply sort_by_sorted; [exact larger_total_total | exact larger_total_trans]].
    intros a b. unfold larger_total, total_ge.
    destruct (total_amount a), (total_amount b); auto; discriminate.
Qed.

(** The WHERE clause of [summarize], with and without the category *)
Lemma holds_summed_all (lo hi : string) (r : expense) :
  holds (sql_between (Some (date r)) (text_affinity (Text lo)) (text_affinity (Text hi)))
  = dated_within lo hi r.
Proof. apply holds_between_text. Qed.

Lemma holds_summed_one (lo hi k : string) (r : expense) :
  holds (sql_and
           (sql_between (Some (date r)) (text_affinity (Text lo)) (text_affinity (Text hi)))
           (sql_eq (Some (category r)) (text_affinity (Text k))))
  = dated_within lo hi r && in_category (Txt k) r.
Proof.
  rewrite holds_and, holds_summed_all. f_equal. simpl text_affinity.
  unfold in_category. destruct (textual_eq_dec (category r) (Txt k)) as [E | E].
  - apply holds_eq. now rewrite E.
  - destruct (holds (sql_eq (Some (category r)) (Some (Txt k)))) eqn:H; [| reflexivity].
    apply holds_eq in H. congruence.
Qed.

(** C4, as the code has it: [summarize] called with two strings and an
    optional category string succeeds and returns one row per category that
    has a record dated within the range (and, when a category other than the
    empty string is passed, only that category): no category twice, none
    without a record; a row carries the number of those records and the SUM of
    their amounts, and the rows come by descending total.  An empty string
    passed as the category restricts nothing. *)
Theorem summarize_groups (t : table) (lo hi : string) (c : option string) :
  exists gs,
    summarize None (Some t) (PyStr lo) (PyStr hi) (opt_str c) = (Ok (Summary gs), Some t) /\
    NoDup (map sum_category gs) /\
    (forall k, In k (map sum_category gs) <->
               exists r, In r (rows t) /\ summed lo hi c r = true /\ category r = k) /\
    (forall g, In g gs ->
       count g
       = List.length
           (filter (fun r => summed lo hi c r && in_category (sum_category g) r) (rows t)) /\
       total_amount g
       = sql_sum (map amount
                    (filter (fun r => summed lo hi c r && in_category (sum_category g) r)
                       (rows t))) /\
       (0 < count g)%nat) /\
    StronglySorted total_ge gs.
Proof.
  unfold summarize.
  cbn [connect the_table bind_result bind_param].
  destruct c as [k |]; cbn [opt_str truthy]; [destruct (k =? "")%string eqn:Hk |];
    cbn [negb bind_result bind_param transaction or_failure try_except fst snd];
    eexists; (split; [reflexivity |]); apply sql_summarize_groups; intros r;
    unfold summed; rewrite ?Hk.
  - rewrite holds_summed_all. now rewrite andb_true_r.
  - apply holds_summed_one.
  - rewrite holds_summed_all. now rewrite andb_true_r.
Qed.

(** ** Initialization *)

(** What [init_db] does to a table that has rowids left: the probe takes the
    next rowid, and every record of category 'test' goes with it. *)
Lemma init_db_effect (t : table) :
  largest_rowid t < max_rowid ->
  init_db None (Some t)
  = (Ok tt,
     Some {| rows := filter (fun r => negb (in_category (Txt "test") r)) (rows t);
             seq := largest_rowid t + 1 |}).
Proof.
  intros Hroom. unfold init_db, or_reraise.
  cbn [connect create_table_if_not_exists the_table bind_result].
  unfold sql_insert, next_rowid. apply Z.ltb_lt in Hroom. rewrite Hroom.
  cbn [bind_result text_affinity real_affinity not_null sql_delete rows seq
       transaction try_except fst snd].
  rewrite filter_app. cbn [filter category].
  replace (holds (sql_eq (Some (Txt "test")) (Some (Txt "test")))) with true by reflexivity.
  cbn [negb]. rewrite app_nil_r.
  do 3 f_equal. apply filter_ext. intros r. f_equal.
  unfold in_category. destruct (textual_eq_dec (category r) (Txt "test")) as [E | E].
  - apply holds_eq. now rewrite E.
  - destruct (holds (sql_eq (Some (category r)) (Some (Txt "test")))) eqn:H; [| reflexivity].
    apply holds_eq in H. congruence.
Qed.

(** C2, at the input where the code departs from it: on a new file, after
    [init_db] and one [add_expense] in the category 'test', the ledger holds
    that record; a second [init_db] succeeds and leaves the ledger empty. *)
Theorem init_db_drops_test_category :
  let db1 := snd (init_db None None) in
  let db2 := snd (add_expense None db1 (PyStr "2024-05-01") (PyInt 5) (PyStr "test")
                    default_subcategory default_note) in
  db2 = Some {| rows := [ {| id := 2; date := Txt "2024-05-01";
                             amount := AReal (real_of_int 5); category := Txt "test";
                             subcategory := Some (Txt ""); note := Some (Txt "") |} ];
                seq := 2 |} /\
  init_db None db2 = (Ok tt, Some {| rows := []; seq := 3 |}).
Proof. split; reflexivity. Qed.

(** Initialization is the one place that lets an exception through. *)
Lemma init_db_reraises (m : string) (db : database) :
  init_db (Some m) db = (Raise (Exn OperationalError m), db).
Proof. reflexivity. Qed.

(** C6, as the code has it: on a new file [init_db] leaves an empty table
    whose probe row has used rowid 1, so the first [add_expense] (any date,
    amount and category) succeeds with id 2. *)
Theorem first_add_after_init (d c : string) (a : real) :
  init_db None None = (Ok tt, Some {| rows := []; seq := 1 |}) /\
  add_expense None (snd (init_db None None)) (PyStr d) (PyFloat (Some a)) (PyStr c)
    default_subcategory default_note
  = (Ok (Added 2 "Expense added successfully"),
     Some {| rows := [ {| id := 2; date := Txt d; amount := AReal a; category := Txt c;
                          subcategory := Some (Txt ""); note := Some (Txt "") |} ];
             seq := 2 |}).
Proof. split; reflexivity. Qed.

End LedgerFacts.

(** ** The catalog *)

(** C8: with no catalog file, [categories] returns the default document: the
    ten names, in the documented order, under the key [categories], written
    with an indent of two. *)
Theorem categories_default :
  default_categories
  = JObject [ ("categories",
               JArray (map JString
                         [ "Food & Dining"; "Transportation"; "Shopping"; "Entertainment";
                           "Bills & Utilities"; "Healthcare"; "Travel"; "Education";
                           "Business"; "Other" ])) ] /\
  categories Missing
  = Ok (String.concat newline
          [ "{";
            "  " ++ quoted "categories" ++ ": [";
            "    " ++ quoted "Food & Dining" ++ ",";
            "    " ++ quoted "Transportation" ++ ",";
            "    " ++ quoted "Shopping" ++ ",";
            "    " ++ quoted "Entertainment" ++ ",";
            "    " ++ quoted "Bills & Utilities" ++ ",";
            "    " ++ quoted "Healthcare" ++ ",";
            "    " ++ quoted "Travel" ++ ",";
            "    " ++ quoted "Education" ++ ",";
            "    " ++ quoted "Business" ++ ",";
            "    " ++ quoted "Other";
            "  ]";
            "}" ]).
Proof. split; reflexivity. Qed.

(** An external document is passed through as it is; any failure other than
    a missing file gives the error document; [categories] never raises. *)
Lemma categories_passes_content (text : string) : categories (Content text) = Ok text.
Proof. reflexivity. Qed.

Lemma categories_unreadable (reason : string) :
  categories (Unreadable reason)
  = Ok (dumps None (JObject [ ("error", JString ("Could not load categories: " ++ reason)) ])).
Proof. reflexivity. Qed.

(** ** The statements at work on the sample ledgers *)

(** The scenario of the specification, with the ids the program assigns. *)
Example scenario_add_list_summarize_edit :
  let db0 := snd (init_db None None) in
  let db1 := snd (add_expense None db0 (PyStr "2024-01-01") (PyFloat (Some (25 # 2)%Q))
                    (PyStr "Food & Dining") default_subcategory default_note) in
  let db2 := snd (edit_expense None db1 (PyStr "2024-01-01") (PyStr "Food & Dining")
                    (PyFloat (Some 15%Q)) default_new default_new default_new) in
  fst (list_expenses None db1 (PyStr "2024-01-01") (PyStr "2024-01-31"))
  = Ok (Listing [lunch]) /\
  fst (summarize None db1 (PyStr "2024-01-01") (PyStr "2024-01-31") default_category)
  = Ok (Summary [ {| sum_category := Txt "Food & Dining";
                     total_amount := Some (25 # 2)%Q; count := 1 |} ]) /\
  fst (edit_expense None db1 (PyStr "2024-01-01") (PyStr "Food & Dining")
         (PyFloat (Some 15%Q)) default_new default_new default_new)
  = Ok (Updated 1) /\
  fst (list_expenses None db2 (PyStr "2024-01-01") (PyStr "2024-01-31"))
  = Ok (Listing [ {| id := 2; date := Txt "2024-01-01"; amount := AReal 15%Q;
                     category := Txt "Food & Dining"; subcategory := Some (Txt "");
                     note := Some (Txt "") |} ]).
Proof. repeat split. Qed.

(** Amounts 10, 20 and 30 in one category add up to 60 over 3 records; the
    bounds of the range are included. *)
Example summarize_three_amounts :
  let add d a db := snd (add_expense None db (PyStr d) (PyInt a) (PyStr "Travel")
                           default_subcategory default_note) in
  let db := add "2024-03-31" 30 (add "2024-03-15" 20 (add "2024-03-01" 10
              (snd (init_db None None)))) in
  fst (summarize None db (PyStr "2024-03-01") (PyStr "2024-03-31") (PyStr "Travel"))
  = Ok (Summary [ {| sum_category := Txt "Travel"; total_amount := Some 60%Q; count := 3 |} ]).
Proof. reflexivity. Qed.

(** [delete_expense] with the note left out keeps the record that has a note. *)
Example delete_default_note_keeps_noted :
  fst (delete_expense None (Some january) (PyStr "2024-01-02") (PyStr "") default_note)
  = Ok (Deleted 0) /\
  delete_expense None (Some january) (PyStr "2024-01-02") (PyStr "") (PyStr "cash")
  = (Ok (Deleted 1), Some {| rows := [lunch]; seq := 3 |}).
Proof. split; reflexivity. Qed.


(** C4 as stated fails: the empty string passed as the category does not
    restrict the summary to the category that is the empty string; the row of
    'Food & Dining' is returned too. *)
Lemma summarize_empty_category_unrestricted :
  fst (summarize None (Some january) (PyStr "2024-01-01") (PyStr "2024-01-31") (PyStr ""))
  = Ok (Summary [ {| sum_category := Txt "Food & Dining";
                     total_amount := Some (25 # 2)%Q; count := 1 |};
                  {| sum_category := Txt ""; total_amount := Some 4%Q; count := 1 |} ]) /\
  Txt "Food & Dining" <> Txt "".
Proof. split; [reflexivity | discriminate]. Qed.

(** C6 as stated fails: on a new file the first [add_expense] of the spec's
    scenario returns id 2, not id 1. *)
Lemma first_add_returns_2 :
  fst (add_expense None (snd (init_db None None)) (PyStr "2024-01-01")
         (PyFloat (Some (25 # 2)%Q)) (PyStr "Food & Dining")
         default_subcategory default_note)
  = Ok (Added 2 "Expense added successfully") /\
  Added 2 "Expense added successfully" <> Added 1 "Expense added successfully".
Proof. split; [reflexivity | discriminate]. Qed.

(** [add_then_list] on the January ledger: a dinner added without a note is
    listed with the empty note. *)
Lemma add_then_list_witness :
  exists i t' l,
    add_expense None (Some january) (PyStr "2024-01-15") (PyFloat (Some (30 # 1)%Q))
      (PyStr "Food & Dining") (PyStr "dinner") default_note
    = (Ok (Added i "Expense added successfully"), Some t') /\
    ~ In i (map id (rows january)) /\
    list_expenses None (Some t') (PyStr "2024-01-01") (PyStr "2024-01-31")
    = (Ok (Listing l), Some t') /\
    In {| id := i; date := Txt "2024-01-15"; amount := AReal (30 # 1)%Q;
          category := Txt "Food & Dining"; subcategory := Some (Txt "dinner");
          note := Some (Txt "") |} l /\
    (forall r, In r l -> id r = i ->
               r = {| id := i; date := Txt "2024-01-15"; amount := AReal (30 # 1)%Q;
                      category := Txt "Food & Dining"; subcategory := Some (Txt "dinner");
                      note := Some (Txt "") |}).
Proof.
  apply (@add_then_list exact_numbers january "2024-01-15" "Food & Dining"
           (Some "dinner") None (30 # 1)%Q "2024-01-01" "2024-01-31"); reflexivity.
Defined.

(** [edit_expense_null_amount] on the January ledger: the lunch is matched and
    the edit fails; nothing is dated 2024-02-01 and the edit updates nothing. *)
Lemma edit_expense_null_amount_witness :
  edit_expense None (Some january) (PyStr "2024-01-01") (PyStr "Food & Dining")
    PyNone default_new default_new (PyStr "late")
  = (Ok (Failure "Error editing expense: NOT NULL constraint failed: expenses.amount"),
     Some january) /\
  edit_expense None (Some january) (PyStr "2024-02-01") (PyStr "Food & Dining")
    PyNone default_new default_new (PyStr "late")
  = (Ok (Updated 0), Some january).
Proof.
  split.
  - apply (proj1 (@edit_expense_null_amount exact_numbers january "2024-01-01"
                    "Food & Dining" None None (Some "late"))).
    exists lunch. repeat split. now left.
  - apply (proj2 (@edit_expense_null_amount exact_numbers january "2024-02-01"
                    "Food & Dining" None None (Some "late"))).
    intros r [<- | [<- | []]] [Hd _]; discriminate Hd.
Defined.

(** * Further properties *)

Section ToolEffects.
Context {F : Float64}.

(** From [H : (x <- m ;; ...) = Ok v], the successful steps of the block *)
Ltac unbind_all H :=
  repeat (apply bind_result_ok in H; destruct H as [? [? H]]).

Lemma the_table_ok (db : database) (t : table) : the_table db = Ok t -> db = Some t.
Proof. destruct db; simpl; congruence. Qed.

Lemma not_null_ok {A} (column : string) (v : option A) (a : A) :
  not_null column v = Ok a -> v = Some a.
Proof. destruct v; simpl; congruence. Qed.

Lemma map_result_ok {A B} (f : A -> result B) (l : list A) (l' : list B) :
  map_result f l = Ok l' -> Forall2 (fun x y => f x = Ok y) l l'.
Proof.
  revert l'. induction l as [| x l IH]; simpl; intros l' H.
  - injection H as <-. constructor.
  - unbind_all H. injection H as <-. constructor; auto.
Qed.

(** What a successful INSERT has done *)
Lemma sql_insert_ok (t : table) (d a c s n : sqlval) (i : Z) (t' : table) :
  sql_insert t d a c s n = Ok (i, t') ->
  largest_rowid t < max_rowid /\
  i = largest_rowid t + 1 /\
  exists new,
    t' = {| rows := rows t ++ [new]; seq := i |} /\
    id new = i /\
    text_affinity d = Some (date new) /\
    real_affinity a = Some (amount new) /\
    text_affinity c = Some (category new) /\
    subcategory new = text_affinity s /\
    note new = text_affinity n.
Proof.
  unfold sql_insert, next_rowid. intros H.
  destruct (largest_rowid t <? max_rowid) eqn:Hroom; [| discriminate].
  apply Z.ltb_lt in Hroom. cbn [bind_result] in H. unbind_all H.
  injection H as <- <-.
  repeat match goal with
         | E : not_null _ _ = Ok _ |- _ => apply not_null_ok in E
         end.
  split; [exact Hroom | split; [reflexivity |]].
  eexists. split; [reflexivity |]. cbn [id date amount category subcategory note].
  repeat split; assumption.
Qed.

(** The two outcomes of a tool: the error dict and the database as it was,
    or the block's own result, committed *)
Lemma or_failure_cases (prefix : string) (db : database)
    (block : result (response * table)) :
  (exists e, block = Raise e /\
             or_failure prefix (transaction db block)
             = (Ok (Failure (prefix ++ message e)), db)) \/
  (exists r t', block = Ok (r, t') /\
                or_failure prefix (transaction db block) = (Ok r, Some t')).
Proof.
  destruct block as [[r t'] | e]; [right | left]; eauto.
Qed.

Lemma add_expense_effect (io : option string) (db : database) (v1 v2 v3 v4 v5 : pyval) :
  (exists m, add_expense io db v1 v2 v3 v4 v5 = (Ok (Failure m), db)) \/
  (exists t new d a c s n,
     db = Some t /\
     largest_rowid t < max_rowid /\
     id new = largest_rowid t + 1 /\
     bind_param v1 = Ok d /\ bind_param v2 = Ok a /\ bind_param v3 = Ok c /\
     bind_param v4 = Ok s /\ bind_param v5 = Ok n /\
     text_affinity d = Some (date new) /\
     real_affinity a = Some (amount new) /\
     text_affinity c = Some (category new) /\
     subcategory new = text_affinity s /\
     note new = text_affinity n /\
     add_expense io db v1 v2 v3 v4 v5
     = (Ok (Added (id new) "Expense added successfully"),
        Some {| rows := rows t ++ [new]; seq := id new |})).
Proof.
  unfold add_expense.
  match goal with
  | |- context [or_failure ?p (transaction db ?b)] =>
      destruct (or_failure_cases p db b) as [[e [_ ->]] | [r [t' [H ->]]]]
  end; [left; eauto | right].
  unbind_all H.
  match goal with E : the_table db = Ok _ |- _ => apply the_table_ok in E end.
  match goal with p : (Z * table)%type |- _ => destruct p as [i t''] end.
  injection H as <- <-.
  match goal with E : sql_insert _ _ _ _ _ _ = Ok _ |- _ =>
    apply sql_insert_ok in E;
    destruct E as [Hroom [Hi [new [-> [Hid [Hd [Ha [Hc [Hs Hn]]]]]]]]]
  end.
  subst i. rewrite <- Hid.
  do 7 eexists. repeat (split; [eassumption || reflexivity |]). reflexivity.
Qed.

Lemma list_expenses_effect (io : option string) (db : database) (v1 v2 : pyval) :
  (exists m, list_expenses io db v1 v2 = (Ok (Failure m), db)) \/
  (exists t lo hi,
     db = Some t /\ bind_param v1 = Ok lo /\ bind_param v2 = Ok hi /\
     list_expenses io db v1 v2
     = (Ok (Listing (sql_select t (fun r =>
                       sql_between (Some (date r)) (text_affinity lo) (text_affinity hi)))),
        db)).
Proof.
  unfold list_expenses.
  match goal with
  | |- context [or_failure ?p (transaction db ?b)] =>
      destruct (or_failure_cases p db b) as [[e [_ ->]] | [r [t' [H ->]]]]
  end; [left; eauto | right].
  unbind_all H.
  match goal with E : the_table db = Ok _ |- _ => apply the_table_ok in E end.
  injection H as <- <-. subst db. eauto 10.
Qed.

Lemma summarize_effect (io : option string) (db : database) (v1 v2 v3 : pyval) :
  (exists m, summarize io db v1 v2 v3 = (Ok (Failure m), db)) \/
  (exists t gs, db = Some t /\ summarize io db v1 v2 v3 = (Ok (Summary gs), db)).
Proof.
  unfold summarize.
  match goal with
  | |- context [or_failure ?p (transaction db ?b)] =>
      destruct (or_failure_cases p db b) as [[e [_ ->]] | [r [t' [H ->]]]]
  end; [left; eauto | right].
  unbind_all H.
  match goal with E : the_table db = Ok _ |- _ => apply the_table_ok in E end.
  destruct (truthy v3); unbind_all H; injection H as <- <-; subst db; eauto.
Qed.

Lemma edit_row_ok (a nd ns nn : sqlval) (r r' : expense) :
  edit_row a nd ns nn r = Ok r' ->
  id r' = id r /\ category r' = category r /\ real_affinity a = Some (amount r').
Proof.
  unfold edit_row. intros H. unbind_all H. injection H as <-.
  repeat match goal with
         | E : not_null _ _ = Ok _ |- _ => apply not_null_ok in E
         end.
  auto.
Qed.

Lemma edit_expense_effect (io : option string) (db : database)
    (v1 v2 v3 v4 v5 v6 : pyval) :
  (exists m, edit_expense io db v1 v2 v3 v4 v5 v6 = (Ok (Failure m), db)) \/
  (exists t t' k,
     db = Some t /\
     seq t' = seq t /\
     Forall2 (fun r r' => id r' = id r /\ category r' = category r) (rows t) (rows t') /\
     edit_expense io db v1 v2 v3 v4 v5 v6 = (Ok (Updated k), Some t')).
Proof.
  unfold edit_expense.
  match goal with
  | |- context [or_failure ?p (transaction db ?b)] =>
      destruct (or_failure_cases p db b) as [[e [_ ->]] | [r [t' [H ->]]]]
  end; [left; eauto | right].
  unbind_all H.
  match goal with E : the_table db = Ok _ |- _ => apply the_table_ok in E end.
  match goal with p : (nat * table)%type |- _ => destruct p as [k t''] end.
  injection H as <- <-.
  match goal with E : sql_update _ _ _ = Ok _ |- _ =>
    unfold sql_update in E; unbind_all E; injection E as <- <-
  end.
  match goal with E : map_result _ _ = Ok _ |- _ => apply map_result_ok in E end.
  do 3 eexists. split; [eassumption |]. split; [| split; [| reflexivity]].
  - reflexivity.
  - cbn [rows]. eapply Forall2_impl; [| eassumption]. cbv beta. intros r r' Hr.
    destruct (holds _) in Hr.
    + apply edit_row_ok in Hr. tauto.
    + injection Hr as <-. auto.
Qed.

Lemma delete_expense_effect (io : option string) (db : database) (v1 v2 v3 : pyval) :
  (exists m, delete_expense io db v1 v2 v3 = (Ok (Failure m), db)) \/
  (exists t f,
     db = Some t /\
     (forall r, note r = None -> f r = false) /\
     delete_expense io db v1 v2 v3
     = (Ok (Deleted (List.length (filter f (rows t)))),
        Some {| rows := filter (fun r => negb (f r)) (rows t); seq := seq t |})).
Proof.
  unfold delete_expense.
  match goal with
  | |- context [or_failure ?p (transaction db ?b)] =>
      destruct (or_failure_cases p db b) as [[e [_ ->]] | [r [t' [H ->]]]]
  end; [left; eauto | right].
  unbind_all H.
  match goal with E : the_table db = Ok _ |- _ => apply the_table_ok in E end.
  unfold sql_delete in H. injection H as <- <-.
  do 2 eexists. split; [eassumption |]. split; [| reflexivity].
  intros r Hr. cbv beta. rewrite Hr, holds_and.
  replace (holds (sql_eq None (text_affinity _))) with false
    by (now destruct (text_affinity _)).
  apply andb_false_r.
Qed.

End ToolEffects.

Section Rowids.
Context {F : Float64}.

Lemma largest_rowid_bounds (t : table) : 0 <= largest_rowid t /\ seq t <= largest_rowid t.
Proof.
  unfold largest_rowid.
  assert (0 <= fold_right Z.max 0 (map id (rows t))).
  { induction (map id (rows t)); cbn [fold_right]; lia. }
  lia.
Qed.

Lemma max_id_filter (f : expense -> bool) (l : list expense) :
  fold_right Z.max 0 (map id (filter f l)) <= fold_right Z.max 0 (map id l).
Proof.
  induction l as [| r l IH]; cbn [filter map fold_right]; [lia |].
  destruct (f r); cbn [map fold_right]; lia.
Qed.

Lemma largest_rowid_filter (t : table) (f : expense -> bool) (s : Z) :
  largest_rowid t <= s ->
  largest_rowid {| rows := filter f (rows t); seq := s |} = s.
Proof.
  unfold largest_rowid. cbn [rows seq]. intros H.
  pose proof (max_id_filter f (rows t)). lia.
Qed.

Lemma StronglySorted_app_last {A} (R : A -> A -> Prop) (l : list A) (a : A) :
  StronglySorted R l -> Forall (fun x => R x a) l -> StronglySorted R (l ++ [a]).
Proof.
  induction 1 as [| x l Hs IH Hx]; intros Ha; simpl.
  - repeat constructor.
  - inversion Ha as [| ? ? Hxa Hla]; subst. constructor; [now apply IH |].
    apply Forall_app. split; [exact Hx | now constructor].
Qed.

Lemma StronglySorted_app {A} (R : A -> A -> Prop) (l1 l2 : list A) :
  StronglySorted R l1 -> StronglySorted R l2 ->
  (forall x y, In x l1 -> In y l2 -> R x y) ->
  StronglySorted R (l1 ++ l2).
Proof.
  induction 1 as [| x l Hs IH Hx]; intros H2 H12; simpl; [exact H2 |].
  constructor.
  - apply IH; [exact H2 |]. intros a b Ha Hb. apply H12; [now right | exact Hb].
  - apply Forall_app. split; [exact Hx |].
    apply Forall_forall. intros y Hy. apply H12; [now left | exact Hy].
Qed.

Lemma StronglySorted_map_filter {A B} (R : B -> B -> Prop) (g : A -> B)
    (f : A -> bool) (l : list A) :
  StronglySorted R (map g l) -> StronglySorted R (map g (filter f l)).
Proof.
  induction l as [| x l IH]; simpl; intros H; [constructor |].
  inversion H as [| ? ? Hs Hx]; subst.
  destruct (f x); simpl; [| now apply IH].
  constructor; [now apply IH |].
  rewrite Forall_forall in *. intros y Hy. apply Hx.
  apply in_map_iff in Hy. destruct Hy as [z [<- Hz]].
  apply in_map. apply filter_In in Hz. tauto.
Qed.

Lemma Forall_map_filter {A B} (P : B -> Prop) (g : A -> B) (f : A -> bool) (l : list A) :
  Forall P (map g l) -> Forall P (map g (filter f l)).
Proof.
  rewrite !Forall_forall. intros H y Hy.
  apply in_map_iff in Hy. destruct Hy as [z [<- Hz]].
  apply H, in_map. apply filter_In in Hz. tauto.
Qed.

Lemma Forall2_same_ids (l l' : list expense) :
  Forall2 (fun r r' => id r' = id r /\ category r' = category r) l l' ->
  map id l' = map id l /\ map category l' = map category l.
Proof.
  induction 1 as [| r r' l l' [Hi Hc] _ [IHi IHc]]; simpl; [auto |].
  now rewrite Hi, Hc, IHi, IHc.
Qed.

Lemma ids_ok_append (t : table) (new : expense) :
  ids_ok t -> id new = largest_rowid t + 1 ->
  ids_ok {| rows := rows t ++ [new]; seq := id new |}.
Proof.
  intros [Hs Hb] Hid. pose proof (largest_rowid_bounds t) as [H0 Hseq].
  unfold ids_ok. cbn [rows seq]. rewrite map_app. cbn [map]. split.
  - apply StronglySorted_app_last; [exact Hs |].
    eapply Forall_impl; [| exact Hb]. cbv beta. lia.
  - apply Forall_app. split.
    + eapply Forall_impl; [| exact Hb]. cbv beta. lia.
    + constructor; [lia | constructor].
Qed.

Lemma ids_ok_filter (t : table) (f : expense -> bool) (s : Z) :
  ids_ok t -> seq t <= s -> ids_ok {| rows := filter f (rows t); seq := s |}.
Proof.
  intros [Hs Hb] Hseq. unfold ids_ok. cbn [rows seq]. split.
  - now apply StronglySorted_map_filter.
  - apply Forall_map_filter. eapply Forall_impl; [| exact Hb]. cbv beta. lia.
Qed.

(** The two ways [init_db] ends *)
Lemma init_db_cases (io : option string) (db : database) :
  (exists e, init_db io db = (Raise e, db) /\
             (io <> None \/ max_rowid <= largest_rowid (create_table_if_not_exists db))) \/
  (io = None /\
   largest_rowid (create_table_if_not_exists db) < max_rowid /\
   init_db io db
   = (Ok tt,
      Some {| rows := filter (fun r => negb (in_category (Txt "test") r))
                        (rows (create_table_if_not_exists db));
              seq := largest_rowid (create_table_if_not_exists db) + 1 |})).
Proof.
  destruct io as [m |].
  - left. eexists. split; [reflexivity | left; discriminate].
  - destruct (Z.lt_ge_cases (largest_rowid (create_table_if_not_exists db)) max_rowid)
      as [Hroom | Hfull].
    + right. split; [reflexivity | split; [exact Hroom |]].
      rewrite <- (init_db_effect _ Hroom). now destruct db.
    + left. destruct db as [t |]; [| now vm_compute in Hfull].
      cbn [create_table_if_not_exists] in Hfull.
      eexists. split; [| right; exact Hfull].
      unfold init_db, or_reraise.
      cbn [connect create_table_if_not_exists the_table bind_result].
      unfold sql_insert, next_rowid. apply Z.ltb_ge in Hfull. rewrite Hfull.
      reflexivity.
Qed.

Lemma init_db_keeps_ids_ok (io : option string) (db : database) :
  db_ok db -> db_ok (snd (init_db io db)).
Proof.
  intros Hok.
  destruct (init_db_cases io db) as [[e [-> _]] | [_ [_ ->]]]; [exact Hok |].
  cbn [snd db_ok]. apply ids_ok_filter.
  - destruct db as [t |]; [exact Hok |]. split; constructor.
  - pose proof (largest_rowid_bounds (create_table_if_not_exists db)). lia.
Qed.

Lemma dispatch_keeps_ids_ok (io : option string) (c : call) (db : database) :
  db_ok db -> db_ok (snd (dispatch io c db)).
Proof.
  intros Hok. destruct c; cbn [dispatch].
  - destruct (add_expense_effect io db date_ amount_ category_ subcategory_ note_)
      as [[m ->] | [t [new [d [a [c [s [n H]]]]]]]]; [exact Hok |].
    destruct H as [-> [_ [Hid H]]].
    repeat match type of H with _ /\ _ => destruct H as [_ H] end. rewrite H.
    cbn [snd db_ok]. now apply ids_ok_append.
  - destruct (list_expenses_effect io db start_date end_date)
      as [[m ->] | [t [lo [hi [_ [_ [_ ->]]]]]]]; exact Hok.
  - destruct (summarize_effect io db start_date end_date category_)
      as [[m ->] | [t [gs [_ ->]]]]; exact Hok.
  - destruct (edit_expense_effect io db date_ category_ new_amount new_date
                new_subcategory new_note)
      as [[m ->] | [t [t' [k [-> [Hseq [Hrows ->]]]]]]]; [exact Hok |].
    cbn [snd db_ok] in *. apply Forall2_same_ids in Hrows. destruct Hrows as [Hids _].
    unfold ids_ok in *. now rewrite Hids, Hseq.
  - destruct (delete_expense_effect io db date_ category_ note_)
      as [[m ->] | [t [f [-> [_ ->]]]]]; [exact Hok |].
    cbn [snd db_ok] in *. apply ids_ok_filter; [exact Hok | lia].
Qed.

Lemma serve_keeps_ids_ok (requests : list request) (db : database) :
  db_ok db -> db_ok (snd (serve requests db)).
Proof.
  revert db. induction requests as [| [io c] rest IH]; intros db Hok; [exact Hok |].
  cbn [serve]. pose proof (dispatch_keeps_ids_ok io c db Hok) as H1.
  destruct (dispatch io c db) as [r db1]. specialize (IH db1 H1).
  destruct (serve rest db1) as [rs db2]. exact IH.
Qed.

Lemma process_keeps_ids_ok (io : option string) (requests : list request) (db : database) :
  db_ok db -> db_ok (snd (process io requests db)).
Proof.
  intros Hok. unfold process.
  pose proof (init_db_keeps_ids_ok io db Hok) as H1.
  destruct (init_db io db) as [[u | e] db1]; [| exact H1].
  now apply serve_keeps_ids_ok.
Qed.

Lemma lives_keep_ids_ok (ps : list (option string * list request)) (db : database) :
  db_ok db -> db_ok (snd (lives ps db)).
Proof.
  revert db. induction ps as [| [io requests] rest IH]; intros db Hok; [exact Hok |].
  cbn [lives]. pose proof (process_keeps_ids_ok io requests db Hok) as H1.
  destruct (process io requests db) as [rs1 db1]. specialize (IH db1 H1).
  destruct (lives rest db1) as [rs2 db2]. exact IH.
Qed.

(** X1: whatever the process has done on a new database file - any number of
    lives, any requests with any arguments, the storage engine failing at any
    of them - the rowids of the ledger are positive, strictly increasing along
    the rows (so no two records share an id) and not above the AUTOINCREMENT
    counter. *)
Theorem ledger_ids_in_order (ps : list (option string * list request)) :
  db_ok (snd (lives ps None)).
Proof. apply lives_keep_ids_ok. exact I. Qed.

End Rowids.

Section HandedOutIds.
Context {F : Float64}.

Lemma added_ids_app (a b : list (result response)) :
  added_ids (a ++ b) = (added_ids a ++ added_ids b)%list.
Proof.
  induction a as [| [[] | e] a IH]; cbn [added_ids app]; now rewrite ?IH.
Qed.

(** Ids handed out in two successive stretches, each within its own bounds *)
Lemma ids_chain (a b b' c : Z) (l1 l2 : list Z) :
  a <= b' -> b <= b' -> b <= c ->
  StronglySorted Z.lt l1 -> Forall (fun i => a < i <= b) l1 ->
  StronglySorted Z.lt l2 -> Forall (fun i => b' < i <= c) l2 ->
  StronglySorted Z.lt (l1 ++ l2) /\ Forall (fun i => a < i <= c) (l1 ++ l2).
Proof.
  intros Hab Hbb Hbc Hs1 Hb1 Hs2 Hb2. rewrite Forall_forall in Hb1, Hb2. split.
  - apply StronglySorted_app; [exact Hs1 | exact Hs2 |].
    intros x y Hx Hy. specialize (Hb1 x Hx). specialize (Hb2 y Hy). lia.
  - apply Forall_app. split; apply Forall_forall; intros x Hx;
      [specialize (Hb1 x Hx) | specialize (Hb2 x Hx)]; lia.
Qed.

Lemma dispatch_ids (io : option string) (c : call) (db : database) :
  exists r db',
    dispatch io c db = (Ok r, db') /\
    counter db <= counter db' /\
    Forall (fun i => counter db < i <= counter db') (added_ids [Ok r]).
Proof.
  destruct c; cbn [dispatch].
  - destruct (add_expense_effect io db date_ amount_ category_ subcategory_ note_)
      as [[m ->] | [t [new [d [a [c [s [n H]]]]]]]].
    + do 2 eexists. split; [reflexivity |]. split; [lia | constructor].
    + destruct H as [-> [_ [Hid H]]].
      repeat match type of H with _ /\ _ => destruct H as [_ H] end. rewrite H.
      pose proof (largest_rowid_bounds t).
      do 2 eexists. split; [reflexivity |]. cbn [counter seq added_ids].
      split; [lia |]. constructor; [lia | constructor].
  - destruct (list_expenses_effect io db start_date end_date)
      as [[m ->] | [t [lo [hi [_ [_ [_ ->]]]]]]];
      do 2 eexists; (split; [reflexivity |]); (split; [lia | constructor]).
  - destruct (summarize_effect io db start_date end_date category_)
      as [[m ->] | [t [gs [_ ->]]]];
      do 2 eexists; (split; [reflexivity |]); (split; [lia | constructor]).
  - destruct (edit_expense_effect io db date_ category_ new_amount new_date
                new_subcategory new_note)
      as [[m ->] | [t [t' [k [-> [Hseq [_ ->]]]]]]];
      do 2 eexists; (split; [reflexivity |]); cbn [counter added_ids];
      (split; [lia | constructor]).
  - destruct (delete_expense_effect io db date_ category_ note_)
      as [[m ->] | [t [f [-> [_ ->]]]]];
      do 2 eexists; (split; [reflexivity |]); cbn [counter seq added_ids];
      (split; [lia | constructor]).
Qed.

Lemma serve_ids (requests : list request) (db : database) :
  counter db <= counter (snd (serve requests db)) /\
  StronglySorted Z.lt (added_ids (fst (serve requests db))) /\
  Forall (fun i => counter db < i <= counter (snd (serve requests db)))
    (added_ids (fst (serve requests db))).
Proof.
  revert db. induction requests as [| [io c] rest IH]; intros db; cbn [serve].
  - cbn [fst snd added_ids]. split; [lia | split; constructor].
  - destruct (dispatch_ids io c db) as [r [db1 [-> [H01 Hr]]]].
    specialize (IH db1). destruct (serve rest db1) as [rs db2].
    cbn [fst snd] in *. destruct IH as [H12 [Hs Hb]].
    change (Ok r :: rs) with ([Ok r] ++ rs)%list. rewrite added_ids_app.
    split; [lia |].
    apply (ids_chain (counter db) (counter db1) (counter db1) (counter db2));
      auto; try lia.
    destruct r; cbn [added_ids]; repeat constructor.
Qed.

Lemma init_db_counter (io : option string) (db : database) :
  (exists e, init_db io db = (Raise e, db)) \/
  (exists db', init_db io db = (Ok tt, db') /\ counter db + 1 <= counter db').
Proof.
  destruct (init_db_cases io db) as [[e [H _]] | [_ [_ H]]]; [left; eauto | right].
  eexists. split; [exact H |]. cbn [counter seq].
  pose proof (largest_rowid_bounds (create_table_if_not_exists db)) as [H0 Hs].
  destruct db as [t |]; cbn [counter create_table_if_not_exists] in *; lia.
Qed.

Lemma process_ids (io : option string) (requests : list request) (db : database) :
  counter db <= counter (snd (process io requests db)) /\
  StronglySorted Z.lt (added_ids (fst (process io requests db))) /\
  Forall (fun i => counter db + 1 < i <= counter (snd (process io requests db)))
    (added_ids (fst (process io requests db))).
Proof.
  unfold process.
  destruct (init_db_counter io db) as [[e ->] | [db1 [-> H01]]].
  - cbn [fst snd added_ids]. split; [lia | split; constructor].
  - destruct (serve_ids requests db1) as [H12 [Hs Hb]].
    split; [lia | split; [exact Hs |]].
    eapply Forall_impl; [| exact Hb]. cbv beta. lia.
Qed.

Lemma lives_ids (ps : list (option string * list request)) (db : database) :
  counter db <= counter (snd (lives ps db)) /\
  StronglySorted Z.lt (added_ids (fst (lives ps db))) /\
  Forall (fun i => counter db + 1 < i <= counter (snd (lives ps db)))
    (added_ids (fst (lives ps db))).
Proof.
  revert db. induction ps as [| [io requests] rest IH]; intros db; cbn [lives].
  - cbn [fst snd added_ids]. split; [lia | split; constructor].
  - pose proof (process_ids io requests db) as [H01 [Hs1 Hb1]].
    destruct (process io requests db) as [rs1 db1].
    specialize (IH db1). destruct (lives rest db1) as [rs2 db2].
    cbn [fst snd] in *. destruct IH as [H12 [Hs2 Hb2]].
    rewrite added_ids_app. split; [lia |].
    apply (ids_chain (counter db + 1) (counter db1) (counter db1 + 1) (counter db2));
      auto; lia.
Qed.

(** X2: over the whole history of a new database file - any number of lives
    of the process, any requests, the storage engine failing at any of them -
    the ids returned by the successful [add_expense] calls are strictly
    increasing in the order of the calls, so no id is handed out twice, also
    after deletions and restarts; and every one of them is above 1. *)
Theorem added_ids_increase (ps : list (option string * list request)) :
  StronglySorted Z.lt (added_ids (fst (lives ps None))) /\
  Forall (fun i => 1 < i) (added_ids (fst (lives ps None))).
Proof.
  destruct (lives_ids ps None) as [_ [Hs Hb]]. split; [exact Hs |].
  eapply Forall_impl; [| exact Hb]. cbv beta. cbn [counter]. lia.
Qed.

End HandedOutIds.

Section Coverage.
Context {F : Float64}.

(** ** Initialization, in general *)

Lemma filter_twice {A} (f : A -> bool) (l : list A) : filter f (filter f l) = filter f l.
Proof.
  rewrite filter_filter. apply filter_ext. intros x. now destruct (f x).
Qed.

Lemma in_category_iff (k : textual) (r : expense) :
  in_category k r = true <-> category r = k.
Proof.
  unfold in_category. destruct (textual_eq_dec (category r) k); split;
    congruence.
Qed.

(** X3: while rowids are left, [init_db] on an existing ledger returns
    normally and keeps, in their order and unchanged, exactly the records
    whose category is not 'test'; no record of category 'test' (its probe
    included) is left, and a ledger without such records is left as it was. *)
Theorem init_db_keeps_other_records (t : table) :
  largest_rowid t < max_rowid ->
  exists t',
    init_db None (Some t) = (Ok tt, Some t') /\
    rows t' = filter (fun r => negb (in_category (Txt "test") r)) (rows t) /\
    (forall r, In r (rows t') <-> In r (rows t) /\ category r <> Txt "test") /\
    ((forall r, In r (rows t) -> category r <> Txt "test") -> rows t' = rows t).
Proof.
  intros Hroom. eexists. split; [apply (init_db_effect t Hroom) |].
  cbn [rows]. split; [reflexivity | split].
  - intros r. rewrite filter_In, negb_true_iff, <- in_category_iff.
    destruct (in_category (Txt "test") r); intuition congruence.
  - intros Hnone. induction (rows t) as [| r l IH]; [reflexivity |].
    cbn [filter].
    replace (in_category (Txt "test") r) with false.
    + cbn [negb]. f_equal. apply IH. intros r' Hr'. apply Hnone. now right.
    + symmetry. apply not_true_is_false. rewrite in_category_iff.
      apply Hnone. now left.
Qed.

(** X4: when two rowids are left, [init_db] run twice in a row returns
    normally both times, and the second run leaves the records exactly as the
    first run left them; it only moves the AUTOINCREMENT counter by one. *)
Theorem init_db_twice (db : database) :
  largest_rowid (create_table_if_not_exists db) + 1 < max_rowid ->
  exists db1 db2,
    init_db None db = (Ok tt, db1) /\
    init_db None db1 = (Ok tt, db2) /\
    records db2 = records db1 /\
    counter db2 = counter db1 + 1.
Proof.
  intros Hroom.
  destruct (init_db_cases None db) as [[e [_ [H | H]]] | [_ [_ H1]]];
    [congruence | lia |].
  rewrite H1. do 2 eexists. split; [reflexivity |].
  match goal with |- init_db None (Some ?t1) = _ /\ _ =>
    assert (Hl : largest_rowid t1 = largest_rowid (create_table_if_not_exists db) + 1)
      by (apply largest_rowid_filter; lia);
    rewrite (init_db_effect t1) by (rewrite Hl; lia)
  end.
  split; [reflexivity |]. cbn [records counter rows seq].
  split; [apply filter_twice | now rewrite Hl].
Qed.


(** ** What the tools leave alone *)

(** X6: [list_expenses] and [summarize] never change the database, whatever
    they are called with and whether they succeed or fail. *)
Theorem queries_change_nothing (io : option string) (db : database) (v1 v2 v3 : pyval) :
  snd (list_expenses io db v1 v2) = db /\ snd (summarize io db v1 v2 v3) = db.
Proof.
  split.
  - destruct (list_expenses_effect io db v1 v2)
      as [[m ->] | [t [lo [hi [_ [_ [_ ->]]]]]]]; reflexivity.
  - destruct (summarize_effect io db v1 v2 v3) as [[m ->] | [t [gs [_ ->]]]];
      reflexivity.
Qed.

(** X7: [edit_expense] never changes the id or the category of a record, nor
    the number or the order of the records, nor the AUTOINCREMENT counter,
    whatever it is called with. *)
Theorem edit_keeps_ids_and_categories (io : option string) (db : database)
    (v1 v2 v3 v4 v5 v6 : pyval) :
  map id (records (snd (edit_expense io db v1 v2 v3 v4 v5 v6))) = map id (records db) /\
  map category (records (snd (edit_expense io db v1 v2 v3 v4 v5 v6)))
  = map category (records db) /\
  counter (snd (edit_expense io db v1 v2 v3 v4 v5 v6)) = counter db.
Proof.
  destruct (edit_expense_effect io db v1 v2 v3 v4 v5 v6)
    as [[m ->] | [t [t' [k [-> [Hseq [Hrows ->]]]]]]]; [auto |].
  cbn [snd records counter]. apply Forall2_same_ids in Hrows. tauto.
Qed.

Lemma filter_split_length {A} (f : A -> bool) (l : list A) :
  (List.length (filter (fun x => negb (f x)) l) + List.length (filter f l)
   = List.length l)%nat.
Proof.
  induction l as [| x l IH]; [reflexivity |].
  cbn [filter]. destruct (f x); cbn [negb List.length]; lia.
Qed.

(** X8: when [delete_expense], called with anything, reports [k] deleted rows,
    the ledger is the old one with [k] records taken out: the remaining
    records are old records, unchanged and in their old order, and the
    AUTOINCREMENT counter is as it was. *)
Theorem delete_accounts_for_rows (io : option string) (db : database)
    (v1 v2 v3 : pyval) (k : nat) :
  fst (delete_expense io db v1 v2 v3) = Ok (Deleted k) ->
  (exists keep,
     records (snd (delete_expense io db v1 v2 v3)) = filter keep (records db)) /\
  (List.length (records (snd (delete_expense io db v1 v2 v3))) + k
   = List.length (records db))%nat /\
  counter (snd (delete_expense io db v1 v2 v3)) = counter db.
Proof.
  destruct (delete_expense_effect io db v1 v2 v3) as [[m ->] | [t [f [-> [_ ->]]]]];
    cbn [fst snd records counter rows seq]; intros H; [discriminate |].
  injection H as <-. split; [eauto | split; [apply filter_split_length | reflexivity]].
Qed.

(** X9: a record whose note is NULL (added with [None] as the note) is never
    removed by [delete_expense], whatever date, category and note are passed. *)
Theorem delete_keeps_null_notes (io : option string) (db : database)
    (v1 v2 v3 : pyval) (r : expense) :
  In r (records db) ->
  note r = None ->
  In r (records (snd (delete_expense io db v1 v2 v3))).
Proof.
  intros Hin Hnote.
  destruct (delete_expense_effect io db v1 v2 v3) as [[m ->] | [t [f [-> [Hf ->]]]]];
    cbn [snd records rows] in *; [exact Hin |].
  apply filter_In. split; [exact Hin |]. now rewrite (Hf r Hnote).
Qed.

(** X10: [list_expenses] called with [None] (or NaN) as either bound lists
    nothing: it returns the empty list, or the error dict when the call fails
    for another reason. *)
Theorem list_null_bound_is_empty (io : option string) (db : database) (v : pyval) :
  structured (fun r => r = Listing []) db (list_expenses io db PyNone v) /\
  structured (fun r => r = Listing []) db (list_expenses io db v PyNone) /\
  structured (fun r => r = Listing []) db (list_expenses io db (PyFloat None) v) /\
  structured (fun r => r = Listing []) db (list_expenses io db v (PyFloat None)).
Proof.
  assert (Hlo : forall (t : table) hi,
             sql_select t (fun r => sql_between (Some (date r)) None hi) = []).
  { intros t hi. unfold sql_select. rewrite filter_none; [reflexivity |].
    intros r _. unfold sql_between, sql_ge, sql_le, sql_compare.
    destruct hi as [y |]; [destruct (is_le (textual_compare (date r) y)) |];
      reflexivity. }
  assert (Hhi : forall (t : table) lo,
             sql_select t (fun r => sql_between (Some (date r)) lo None) = []).
  { intros t lo. unfold sql_select. rewrite filter_none; [reflexivity |].
    intros r _. unfold sql_between, sql_ge, sql_le, sql_compare.
    destruct lo as [y |]; [destruct (is_ge (textual_compare (date r) y)) |];
      reflexivity. }
  repeat split;
    match goal with
    | |- structured _ db (list_expenses io db ?a ?b) =>
        destruct (list_expenses_effect io db a b)
          as [[m ->] | [t [lo [hi [_ [Ha [Hb ->]]]]]]];
          [eexists; split; [reflexivity | right; eauto] |];
          eexists; (split; [reflexivity |]); left; cbn [bind_param] in *;
          try (injection Ha as <-); try (injection Hb as <-); f_equal;
          cbn [text_affinity]; auto
    end.
Qed.

End Coverage.

Section Composition.
Context {F : Float64}.

(** ** Summaries *)

Lemma list_sum_cons (x : nat) (l : list nat) : list_sum (x :: l) = (x + list_sum l)%nat.
Proof. reflexivity. Qed.

Lemma list_sum_perm (l l' : list nat) : Permutation l l' -> list_sum l = list_sum l'.
Proof. induction 1; rewrite ?list_sum_cons; lia. Qed.

Lemma list_sum_map_add {A} (f g : A -> nat) (l : list A) :
  list_sum (map (fun x => (f x + g x)%nat) l)
  = (list_sum (map f l) + list_sum (map g l))%nat.
Proof.
  induction l as [| x l IH]; cbn [map]; rewrite ?list_sum_cons; [reflexivity | lia].
Qed.

(** Among distinct keys, exactly one is the category of a record that has one *)
Lemma one_key_matches (r : expense) (keys : list textual) :
  NoDup keys -> In (category r) keys ->
  list_sum (map (fun k => if same_category k r then 1%nat else 0%nat) keys) = 1%nat.
Proof.
  assert (Hnone : forall ks, ~ In (category r) ks ->
            list_sum (map (fun k => if same_category k r then 1%nat else 0%nat) ks) = 0%nat).
  { induction ks as [| k ks IH]; intros Hk; [reflexivity |].
    cbn [map]. rewrite list_sum_cons, IH by (intros H; apply Hk; now right).
    rewrite same_category_in_category.
    destruct (in_category k r) eqn:E; [| reflexivity].
    apply in_category_iff in E. exfalso. apply Hk. now left. }
  induction 1 as [| k ks Hk Hnd IH]; intros Hin; [contradiction |].
  cbn [map]. rewrite list_sum_cons, same_category_in_category.
  destruct (in_category k r) eqn:E.
  - apply in_category_iff in E. subst k. now rewrite Hnone.
  - destruct Hin as [-> | Hin].
    + assert (in_category (category r) r = true) by now apply in_category_iff.
      congruence.
    + now rewrite IH.
Qed.

Lemma group_counts_add_up (rs : list expense) (keys : list textual) :
  NoDup keys -> (forall r, In r rs -> In (category r) keys) ->
  list_sum (map (fun k => List.length (filter (same_category k) rs)) keys)
  = List.length rs.
Proof.
  intros Hnd. induction rs as [| r rs IH]; intros Hall.
  - cbn [filter List.length]. clear. induction keys as [| k keys IH]; [reflexivity |].
    cbn [map]. now rewrite list_sum_cons, IH.
  - rewrite (map_ext _ (fun k => ((if same_category k r then 1 else 0)
                                   + List.length (filter (same_category k) rs))%nat)).
    + rewrite list_sum_map_add, one_key_matches, IH; auto.
      * intros r' Hr'. apply Hall. now right.
      * apply Hall. now left.
    + intros k. cbn [filter]. now destruct (same_category k r).
Qed.

Lemma sql_summarize_counts (t : table) (w : expense -> option bool) :
  list_sum (map count (sql_summarize t w))
  = List.length (filter (fun r => holds (w r)) (rows t)).
Proof.
  unfold sql_summarize.
  set (rs := filter (fun r => holds (w r)) (rows t)).
  set (keys := sort_by category_leb (nodup textual_eq_dec (map category rs))).
  rewrite (list_sum_perm _ (map count (map (group_of rs) keys)))
    by (apply Permutation_map, sort_by_perm).
  rewrite map_map. cbn [group_of count].
  apply group_counts_add_up.
  - apply (Permutation_NoDup (Permutation_sym (sort_by_perm _ _))), NoDup_nodup.
  - intros r Hr. unfold keys. rewrite sort_by_in, nodup_In. now apply in_map.
Qed.

(** [summarize] on the documented argument types is one GROUP BY statement
    over the records that [summed] selects *)
Lemma summarize_strings (t : table) (lo hi : string) (c : option string) :
  exists w,
    summarize None (Some t) (PyStr lo) (PyStr hi) (opt_str c)
    = (Ok (Summary (sql_summarize t w)), Some t) /\
    forall r, holds (w r) = summed lo hi c r.
Proof.
  unfold summarize.
  cbn [connect the_table bind_result bind_param].
  destruct c as [k |]; cbn [opt_str truthy]; [destruct (k =? "")%string eqn:Hk |];
    cbn [negb bind_result bind_param transaction or_failure try_except fst snd];
    eexists; (split; [reflexivity |]); intros r; unfold summed; rewrite ?Hk.
  - rewrite holds_summed_all. now rewrite andb_true_r.
  - apply holds_summed_one.
  - rewrite holds_summed_all. now rewrite andb_true_r.
Qed.

(** X11: in the result of [summarize] (strings for the bounds, an optional
    category string) the counts of the rows add up to the number of records
    dated within the range (of the given category, when one that is not the
    empty string is passed): every such record is counted, and counted once. *)
Theorem summarize_counts_add_up (t : table) (lo hi : string) (c : option string) :
  exists gs,
    summarize None (Some t) (PyStr lo) (PyStr hi) (opt_str c)
    = (Ok (Summary gs), Some t) /\
    list_sum (map count gs) = List.length (filter (summed lo hi c) (rows t)).
Proof.
  destruct (summarize_strings t lo hi c) as [w [Hs Hw]].
  eexists. split; [exact Hs |].
  rewrite sql_summarize_counts. f_equal. apply filter_ext. exact Hw.
Qed.

(** X12: [summarize] called with a category that is not the empty string
    returns at most one row, and that row is of the category passed; it
    returns no row exactly when no record of that category is dated within
    the range. *)
Theorem summarize_one_category (t : table) (lo hi k : string) :
  (k =? "")%string = false ->
  exists gs,
    summarize None (Some t) (PyStr lo) (PyStr hi) (PyStr k) = (Ok (Summary gs), Some t) /\
    (gs = [] \/ exists g, gs = [g] /\ sum_category g = Txt k) /\
    (gs = [] <->
     forall r, In r (rows t) -> dated_within lo hi r && in_category (Txt k) r = false).
Proof.
  intros Hk.
  destruct (summarize_strings t lo hi (Some k)) as [w [Hs Hw]].
  exists (sql_summarize t w). split; [exact Hs |].
  destruct (sql_summarize_groups t w _ Hw) as [Hnd [Hkeys _]].
  assert (Hsel : forall r, summed lo hi (Some k) r
                           = dated_within lo hi r && in_category (Txt k) r).
  { intros r. unfold summed. now rewrite Hk. }
  assert (Hall : forall g, In g (sql_summarize t w) -> sum_category g = Txt k).
  { intros g Hg. apply (in_map sum_category) in Hg. apply Hkeys in Hg.
    destruct Hg as [r [_ [Hr <-]]]. rewrite Hsel in Hr.
    apply andb_true_iff in Hr. now apply in_category_iff. }
  split.
  - destruct (sql_summarize t w) as [| g [| g' gs]];
      [now left | right; exists g; split; [reflexivity | apply Hall; now left] |].
    exfalso. cbn [map] in Hnd.
    rewrite (Hall g), (Hall g') in Hnd by (cbn; auto).
    inversion Hnd as [| ? ? Hno _]. apply Hno. now left.
  - split.
    + intros Hnil r Hin. rewrite <- Hsel.
      destruct (summed lo hi (Some k) r) eqn:Hr; [| reflexivity].
      exfalso. assert (Hin' : In (category r) (map sum_category (sql_summarize t w)))
        by (apply Hkeys; eauto).
      now rewrite Hnil in Hin'.
    + intros Hno. destruct (sql_summarize t w) as [| g gs] eqn:E; [reflexivity |].
      exfalso. assert (Hg : In (sum_category g) (map sum_category (g :: gs)))
        by now left.
      apply Hkeys in Hg. destruct Hg as [r [Hin [Hr _]]].
      rewrite Hsel, (Hno r Hin) in Hr. discriminate.
Qed.

(** X13: [summarize] treats every falsy category - [None], the empty string,
    empty bytes, 0, 0.0, an empty container - as no category at all: the
    outcome is the one of the call without a category. *)
Theorem summarize_falsy_category (io : option string) (db : database)
    (lo hi v : pyval) :
  truthy v = false ->
  summarize io db lo hi v = summarize io db lo hi default_category.
Proof.
  intros Hv. unfold summarize, default_category. rewrite Hv. reflexivity.
Qed.

End Composition.

Section Repetition.
Context {F : Float64}.

(** ** Calls that follow one another *)

Lemma filter_map {A B} (p : B -> bool) (g : A -> B) (l : list A) :
  filter p (map g l) = map g (filter (fun x => p (g x)) l).
Proof.
  induction l as [| x l IH]; [reflexivity |].
  cbn [map filter]. destruct (p (g x)); cbn [map]; now rewrite IH.
Qed.

Lemma filter_all {A} (f : A -> bool) (l : list A) :
  (forall x, In x l -> f x = true) -> filter f l = l.
Proof.
  induction l as [| x l IH]; intros H; [reflexivity |].
  cbn [filter]. rewrite (H x (or_introl eq_refl)). f_equal.
  apply IH. intros y Hy. apply H. now right.
Qed.

(** [edit_expense] on the documented argument types, as a function on the rows *)
Lemma edit_expense_strings
    (t : table) (d c : string) (a : real) (nd ns nn : option string) :
  edit_expense None (Some t) (PyStr d) (PyStr c) (PyFloat (Some a))
    (opt_str nd) (opt_str ns) (opt_str nn)
  = (Ok (Updated (List.length (filter (is_pair d c) (rows t)))),
     Some {| rows := map (fun r => if is_pair d c r then edited a nd ns nn r else r) (rows t);
             seq := seq t |}).
Proof.
  unfold edit_expense. cbn [connect the_table bind_result bind_param].
  rewrite !bind_param_opt_str. cbn [bind_result]. unfold sql_update.
  rewrite (map_result_total _ (fun r => if is_pair d c r then edited a nd ns nn r else r)).
  - cbn [bind_result transaction or_failure try_except fst snd].
    rewrite (filter_ext _ (is_pair d c)) by (intros r; apply holds_pair).
    reflexivity.
  - intros r _. rewrite holds_pair.
    destruct (is_pair d c r); [apply edit_row_strings | reflexivity].
Qed.

(** X14: an [edit_expense] that leaves the date alone can be repeated: the
    second call, with the same arguments, reports the same number of updated
    rows and leaves the ledger exactly as the first call left it. *)
Theorem edit_twice (t : table) (d c : string) (a : real) (ns nn : option string) :
  exists k t1,
    edit_expense None (Some t) (PyStr d) (PyStr c) (PyFloat (Some a))
      default_new (opt_str ns) (opt_str nn)
    = (Ok (Updated k), Some t1) /\
    edit_expense None (Some t1) (PyStr d) (PyStr c) (PyFloat (Some a))
      default_new (opt_str ns) (opt_str nn)
    = (Ok (Updated k), Some t1).
Proof.
  change default_new with (opt_str None).
  set (g := fun r => if is_pair d c r then edited a None ns nn r else r).
  assert (Hpair : forall r, is_pair d c (g r) = is_pair d c r).
  { intros r. unfold g. destruct (is_pair d c r) eqn:E; [| exact E].
    unfold is_pair, pair_of in *. exact E. }
  assert (Hg : forall r, g (g r) = g r).
  { intros r. unfold g at 1. rewrite Hpair. unfold g.
    destruct (is_pair d c r); [| reflexivity].
    unfold edited. cbn [id date amount category subcategory note].
    destruct ns, nn; reflexivity. }
  do 2 eexists. split; [apply edit_expense_strings |].
  rewrite edit_expense_strings. cbn [rows seq]. fold g.
  rewrite filter_map, length_map, map_map.
  rewrite (filter_ext _ (is_pair d c)) by exact Hpair.
  rewrite (map_ext _ g) by exact Hg. reflexivity.
Qed.

(** X15: a [delete_expense] repeated with the same arguments finds nothing
    more: the second call reports 0 deleted rows and leaves the ledger as the
    first call left it. *)
Theorem delete_twice (t : table) (d c : string) (n : option string) :
  exists k t1,
    delete_expense None (Some t) (PyStr d) (PyStr c) (passed n default_note)
    = (Ok (Deleted k), Some t1) /\
    delete_expense None (Some t1) (PyStr d) (PyStr c) (passed n default_note)
    = (Ok (Deleted 0), Some t1).
Proof.
  assert (Hp : passed n default_note = PyStr (given n)) by now destruct n.
  rewrite Hp. do 2 eexists. split; [apply delete_expense_strings |].
  rewrite delete_expense_strings. cbn [rows seq].
  rewrite <- count_is_triple, filter_filter, filter_twice.
  rewrite filter_none by (intros r _; now destruct (is_triple d c (given n) r)).
  reflexivity.
Qed.

(** X16: while rowids are left and no record has the triple
    (date, category, note), an [add_expense] followed by a [delete_expense]
    of that triple removes exactly the record just added: 1 deleted row, and
    the records are the ones before the add; only the AUTOINCREMENT counter
    keeps the id that was used. *)
Theorem add_then_delete (t : table) (d c sc n : string) (a : real) :
  largest_rowid t < max_rowid ->
  (forall r, In r (rows t) -> is_triple d c n r = false) ->
  exists i t1 t2,
    add_expense None (Some t) (PyStr d) (PyFloat (Some a)) (PyStr c) (PyStr sc) (PyStr n)
    = (Ok (Added i "Expense added successfully"), Some t1) /\
    delete_expense None (Some t1) (PyStr d) (PyStr c) (PyStr n)
    = (Ok (Deleted 1), Some t2) /\
    rows t2 = rows t /\
    seq t2 = i /\
    seq t < i.
Proof.
  intros Hroom Hnone.
  assert (Hadd : add_expense None (Some t) (PyStr d) (PyFloat (Some a)) (PyStr c)
                   (PyStr sc) (PyStr n)
                 = (Ok (Added (largest_rowid t + 1) "Expense added successfully"),
                    Some {| rows := rows t ++ [ {| id := largest_rowid t + 1;
                                                   date := Txt d; amount := AReal a;
                                                   category := Txt c;
                                                   subcategory := Some (Txt sc);
                                                   note := Some (Txt n) |} ];
                            seq := largest_rowid t + 1 |})).
  { unfold add_expense. cbn [connect the_table bind_result bind_param].
    unfold sql_insert, next_rowid.
    pose proof Hroom as Hb. apply Z.ltb_lt in Hb. rewrite Hb. reflexivity. }
  do 3 eexists. split; [exact Hadd |].
  rewrite delete_expense_strings. cbn [rows seq].
  rewrite <- count_is_triple, !filter_app, length_app.
  rewrite (filter_none (is_triple d c n) (rows t)) by exact Hnone.
  assert (Hnew : is_triple d c n
                   {| id := largest_rowid t + 1; date := Txt d; amount := AReal a;
                      category := Txt c; subcategory := Some (Txt sc);
                      note := Some (Txt n) |} = true).
  { unfold is_triple, triple_of. cbn [date category note].
    now destruct (triple_eq_dec (Txt d, Txt c, Some (Txt n)) (Txt d, Txt c, Some (Txt n))). }
  cbn [filter]. rewrite Hnew. cbn [negb List.length Nat.add app].
  split; [reflexivity |]. rewrite app_nil_r.
  split; [| pose proof (largest_rowid_bounds t); split; [reflexivity | lia]].
  cbn [rows]. apply filter_all. intros r Hr. now rewrite (Hnone r Hr).
Qed.

(** ** Rejected calls *)

(** X17: [add_expense] stores no record without a date, an amount or a
    category: with [None] as the date, [None] or NaN as the amount, or [None]
    as the category it returns the error dict and leaves the database as it
    was, whatever the other arguments are. *)
Theorem add_rejects_null (io : option string) (db : database) (v1 v2 v3 v4 v5 : pyval) :
  (exists m, add_expense io db PyNone v2 v3 v4 v5 = (Ok (Failure m), db)) /\
  (exists m, add_expense io db v1 PyNone v3 v4 v5 = (Ok (Failure m), db)) /\
  (exists m, add_expense io db v1 (PyFloat None) v3 v4 v5 = (Ok (Failure m), db)) /\
  (exists m, add_expense io db v1 v2 PyNone v4 v5 = (Ok (Failure m), db)).
Proof.
  repeat split;
    match goal with
    | |- exists m, add_expense io db ?a ?b ?c ?d ?e = _ =>
        destruct (add_expense_effect io db a b c d e)
          as [H | [t [new [x1 [x2 [x3 [x4 [x5 H]]]]]]]]; [exact H |];
          destruct H as [_ [_ [_ [H1 [H2 [H3 [_ [_ [A1 [A2 [A3 _]]]]]]]]]]];
          cbn [bind_param] in *;
          try (injection H1 as <-); try (injection H2 as <-); try (injection H3 as <-);
          discriminate
    end.
Qed.

(** X18: once the largest rowid has been used, [add_expense] adds nothing
    more: it returns the error dict and leaves the ledger as it was; with
    arguments of the documented types the message is the storage engine's
    'database or disk is full'. *)
Theorem add_full_table (t : table) (io : option string) (v1 v2 v3 v4 v5 : pyval)
    (d c : string) (a : real) :
  max_rowid <= largest_rowid t ->
  (exists m, add_expense io (Some t) v1 v2 v3 v4 v5 = (Ok (Failure m), Some t)) /\
  add_expense None (Some t) (PyStr d) (PyFloat (Some a)) (PyStr c)
    default_subcategory default_note
  = (Ok (Failure "Database error: database or disk is full"), Some t).
Proof.
  intros Hfull. split.
  - destruct (add_expense_effect io (Some t) v1 v2 v3 v4 v5)
      as [H | [t' [new [x1 [x2 [x3 [x4 [x5 H]]]]]]]]; [exact H |].
    destruct H as [E [Hroom _]]. injection E as <-. lia.
  - unfold add_expense. cbn [connect the_table bind_result bind_param default_subcategory
                              default_note].
    unfold sql_insert, next_rowid. apply Z.ltb_ge in Hfull. rewrite Hfull. reflexivity.
Qed.

(** X19: on a database file without the table (before any [init_db]) every
    tool, whatever it is called with, returns the error dict, and the file
    stays without the table. *)
Theorem tools_need_table (io : option string) (c : call) :
  exists m, dispatch io c None = (Ok (Failure m), None).
Proof.
  destruct c; cbn [dispatch].
  - destruct (add_expense_effect io None date_ amount_ category_ subcategory_ note_)
      as [H | [t [new [x1 [x2 [x3 [x4 [x5 [E _]]]]]]]]]; [exact H | discriminate].
  - destruct (list_expenses_effect io None start_date end_date)
      as [H | [t [lo [hi [E _]]]]]; [exact H | discriminate].
  - destruct (summarize_effect io None start_date end_date category_)
      as [H | [t [gs [E _]]]]; [exact H | discriminate].
  - destruct (edit_expense_effect io None date_ category_ new_amount new_date
                new_subcategory new_note)
      as [H | [t [t' [k [E _]]]]]; [exact H | discriminate].
  - destruct (delete_expense_effect io None date_ category_ note_)
      as [H | [t [f [E _]]]]; [exact H | discriminate].
Qed.

(** ** Listings *)

Lemma increasing_NoDup (l : list Z) : StronglySorted Z.lt l -> NoDup l.
Proof.
  induction 1 as [| x l Hs IH Hx]; constructor; [| exact IH].
  intros Hin. rewrite Forall_forall in Hx. specialize (Hx x Hin). lia.
Qed.

(** X20: on a ledger whose rowids are in order, whatever [list_expenses] is
    called with, the records it returns are records of the ledger, unchanged,
    and no two of them have the same id. *)
Theorem listed_records_distinct (io : option string) (db : database)
    (v1 v2 : pyval) (l : list expense) :
  db_ok db ->
  fst (list_expenses io db v1 v2) = Ok (Listing l) ->
  NoDup (map id l) /\ (forall r, In r l -> In r (records db)).
Proof.
  intros Hok.
  destruct (list_expenses_effect io db v1 v2)
    as [[m ->] | [t [lo [hi [-> [_ [_ ->]]]]]]]; cbn [fst]; intros H; [discriminate |].
  injection H as <-. unfold sql_select. cbn [db_ok records] in *. split.
  - apply (Permutation_NoDup
             (Permutation_map id (Permutation_sym (sort_by_perm newest_first _)))).
    apply increasing_NoDup, StronglySorted_map_filter, Hok.
  - intros r Hr. apply sort_by_in, filter_In in Hr. tauto.
Qed.

End Repetition.


Section Moves.
Context {F : Float64}.

(** X22: an [edit_expense] that gives the matched records another date moves
    them: afterwards no record has the old (date, category), and the same
    call again updates 0 rows and changes nothing. *)
Theorem edit_moves_records
    (t : table) (d c d' : string) (a : real) (ns nn : option string) :
  (d' =? d)%string = false ->
  exists k t1,
    edit_expense None (Some t) (PyStr d) (PyStr c) (PyFloat (Some a))
      (PyStr d') (opt_str ns) (opt_str nn)
    = (Ok (Updated k), Some t1) /\
    (forall r, In r (rows t1) -> ~ (date r = Txt d /\ category r = Txt c)) /\
    edit_expense None (Some t1) (PyStr d) (PyStr c) (PyFloat (Some a))
      (PyStr d') (opt_str ns) (opt_str nn)
    = (Ok (Updated 0), Some t1).
Proof.
  intros Hd. change (PyStr d') with (opt_str (Some d')).
  set (g := fun r => if is_pair d c r then edited a (Some d') ns nn r else r).
  assert (Hgone : forall r, is_pair d c (g r) = false).
  { intros r. unfold g. destruct (is_pair d c r) eqn:E; [| exact E].
    unfold is_pair, pair_of, edited. cbn [date category].
    destruct (pair_eq_dec (Txt d', category r) (Txt d, Txt c)) as [E' | _];
      [| reflexivity].
    injection E' as E' _. apply String.eqb_neq in Hd. contradiction. }
  do 2 eexists. split; [apply edit_expense_strings | split].
  - cbn [rows]. fold g. intros r Hr [H1 H2]. apply in_map_iff in Hr.
    destruct Hr as [r0 [<- _]]. specialize (Hgone r0).
    unfold is_pair, pair_of in Hgone. rewrite H1, H2 in Hgone.
    now destruct (pair_eq_dec (Txt d, Txt c) (Txt d, Txt c)).
  - rewrite edit_expense_strings. cbn [rows seq]. fold g.
    rewrite (filter_none (is_pair d c) (map g (rows t))).
    + do 3 f_equal. rewrite map_map. apply map_ext. intros r.
      unfold g at 1. now rewrite Hgone.
    + intros r Hr. apply in_map_iff in Hr. destruct Hr as [r0 [<- _]]. apply Hgone.
Qed.

(** X23: [summarize] without a category counts what [list_expenses] returns:
    over the same range of strings, the counts of the summary add up to the
    number of records listed. *)
Theorem summarize_counts_what_is_listed (t : table) (lo hi : string) :
  exists gs l,
    summarize None (Some t) (PyStr lo) (PyStr hi) default_category
    = (Ok (Summary gs), Some t) /\
    list_expenses None (Some t) (PyStr lo) (PyStr hi) = (Ok (Listing l), Some t) /\
    list_sum (map count gs) = List.length l.
Proof.
  destruct (summarize_strings t lo hi None) as [w [Hs Hw]].
  do 2 eexists. split; [exact Hs | split; [reflexivity |]].
  rewrite sql_summarize_counts. unfold sql_select.
  rewrite (Permutation_length (sort_by_perm newest_first _)).
  f_equal. apply filter_ext. intros r. rewrite Hw. unfold summed.
  rewrite andb_true_r. cbn [bind_param text_affinity]. symmetry.
  apply holds_between_text.
Qed.

End Moves.

(** ** The further statements at work on the sample ledgers *)

(** A history with a restart: two adds, a delete, a restart, one more add. *)
Example history_of_ids :
  let add d := (None, Add (PyStr d) (PyInt 7) (PyStr "Travel")
                        default_subcategory default_note) in
  let del d := (None, DeleteExpense (PyStr d) (PyStr "Travel") default_note) in
  added_ids (fst (lives [ (None, [add "2024-04-01"; add "2024-04-02"; del "2024-04-02"]);
                          (None, [add "2024-04-03"]) ] None))
  = [2; 3; 5].
Proof. reflexivity. Qed.

Lemma init_db_keeps_other_records_witness :
  exists t',
    init_db None (Some january_on_trial) = (Ok tt, Some t') /\
    rows t' = filter (fun r => negb (in_category (Txt "test") r)) (rows january_on_trial) /\
    (forall r, In r (rows t') <-> In r (rows january_on_trial) /\ category r <> Txt "test") /\
    ((forall r, In r (rows january_on_trial) -> category r <> Txt "test") ->
     rows t' = rows january_on_trial).
Proof.
  apply (@init_db_keeps_other_records exact_numbers january_on_trial). reflexivity.
Defined.

Lemma init_db_twice_witness :
  exists db1 db2,
    init_db None (Some january_on_trial) = (Ok tt, db1) /\
    init_db None db1 = (Ok tt, db2) /\
    records db2 = records db1 /\
    counter db2 = counter db1 + 1.
Proof.
  apply (@init_db_twice exact_numbers (Some january_on_trial)). reflexivity.
Defined.

Lemma delete_accounts_for_rows_witness :
  (exists keep,
     records (snd (delete_expense None (Some january) (PyStr "2024-01-02") (PyStr "")
                     (PyStr "cash")))
     = filter keep (records (Some january))) /\
  (List.length (records (snd (delete_expense None (Some january) (PyStr "2024-01-02")
                                (PyStr "") (PyStr "cash")))) + 1
   = List.length (records (Some january)))%nat /\
  counter (snd (delete_expense None (Some january) (PyStr "2024-01-02") (PyStr "")
                  (PyStr "cash")))
  = counter (Some january).
Proof.
  apply (@delete_accounts_for_rows exact_numbers None (Some january)
           (PyStr "2024-01-02") (PyStr "") (PyStr "cash") 1%nat).
  reflexivity.
Defined.

Lemma delete_keeps_null_notes_witness :
  In trial
    (records (snd (delete_expense None (Some january_on_trial) (PyStr "2024-01-03")
                     (PyStr "test") PyNone))).
Proof.
  apply (@delete_keeps_null_notes exact_numbers None (Some january_on_trial)
           (PyStr "2024-01-03") (PyStr "test") PyNone trial).
  - right. right. left. reflexivity.
  - reflexivity.
Defined.

Lemma summarize_one_category_witness :
  exists gs,
    summarize None (Some january) (PyStr "2024-01-01") (PyStr "2024-01-31")
      (PyStr "Food & Dining")
    = (Ok (Summary gs), Some january) /\
    (gs = [] \/ exists g, gs = [g] /\ sum_category g = Txt "Food & Dining") /\
    (gs = [] <->
     forall r, In r (rows january) ->
               dated_within "2024-01-01" "2024-01-31" r
               && in_category (Txt "Food & Dining") r = false).
Proof.
  apply (@summarize_one_category exact_numbers january "2024-01-01" "2024-01-31"
           "Food & Dining").
  reflexivity.
Defined.

Lemma summarize_falsy_category_witness :
  summarize None (Some january) (PyStr "2024-01-01") (PyStr "2024-01-31") (PyInt 0)
  = summarize None (Some january) (PyStr "2024-01-01") (PyStr "2024-01-31")
      default_category.
Proof.
  apply (@summarize_falsy_category exact_numbers None (Some january)
           (PyStr "2024-01-01") (PyStr "2024-01-31") (PyInt 0)).
  reflexivity.
Defined.

Lemma add_then_delete_witness :
  exists i t1 t2,
    add_expense None (Some january) (PyStr "2024-01-20") (PyFloat (Some 9%Q))
      (PyStr "Travel") (PyStr "bus") (PyStr "airport")
    = (Ok (Added i "Expense added successfully"), Some t1) /\
    delete_expense None (Some t1) (PyStr "2024-01-20") (PyStr "Travel") (PyStr "airport")
    = (Ok (Deleted 1), Some t2) /\
    rows t2 = rows january /\
    seq t2 = i /\
    seq january < i.
Proof.
  apply (@add_then_delete exact_numbers january "2024-01-20" "Travel" "bus" "airport" 9%Q).
  - reflexivity.
  - intros r [<- | [<- | []]]; reflexivity.
Defined.

Lemma add_full_table_witness :
  (exists m,
     add_expense None (Some exhausted) (PyStr "2024-01-20") (PyInt 9) (PyStr "Travel")
       PyNone PyNone
     = (Ok (Failure m), Some exhausted)) /\
  add_expense None (Some exhausted) (PyStr "2024-01-20") (PyFloat (Some 9%Q))
    (PyStr "Travel") default_subcategory default_note
  = (Ok (Failure "Database error: database or disk is full"), Some exhausted).
Proof.
  apply (@add_full_table exact_numbers exhausted None (PyStr "2024-01-20") (PyInt 9)
           (PyStr "Travel") PyNone PyNone "2024-01-20" "Travel" 9%Q).
  vm_compute. discriminate.
Defined.

Lemma listed_records_distinct_witness :
  NoDup (map id [unfiled; lunch]) /\
  (forall r, In r [unfiled; lunch] -> In r (records (Some january))).
Proof.
  apply (@listed_records_distinct exact_numbers None (Some january)
           (PyStr "2024-01-01") (PyStr "2024-01-31") [unfiled; lunch]).
  - split; cbn [map rows january seq id lunch unfiled]; repeat first [lia | constructor].
  - reflexivity.
Defined.

Lemma edit_moves_records_witness :
  exists k t1,
    edit_expense None (Some january) (PyStr "2024-01-01") (PyStr "Food & Dining")
      (PyFloat (Some 15%Q)) (PyStr "2024-01-05") default_new default_new
    = (Ok (Updated k), Some t1) /\
    (forall r, In r (rows t1) ->
               ~ (date r = Txt "2024-01-01" /\ category r = Txt "Food & Dining")) /\
    edit_expense None (Some t1) (PyStr "2024-01-01") (PyStr "Food & Dining")
      (PyFloat (Some 15%Q)) (PyStr "2024-01-05") default_new default_new
    = (Ok (Updated 0), Some t1).
Proof.
  apply (@edit_moves_records exact_numbers january "2024-01-01" "Food & Dining"
           "2024-01-05" 15%Q None None).
  reflexivity.
Defined.
